(** * Conversation session state of forge.ai

    A shallow embedding of the three [ConversationProvider] components of the
    repository and the properties of their operations:

    - [Remote]: the provider backed by [conversationAPI]
      (src/contexts/ConversationContext.tsx, first component);
    - [Local]: the in-memory provider whose operations return nothing
      (src/contexts/ConversationContext.tsx, second component);
    - [Ephemeral]: the in-memory provider whose [createConversation] and
      [addMessage] return the conversation they built, and whose
      [addMessage] accepts a target (src/unnamed/part_000).

    A JavaScript string is modelled by [string], one character standing for
    one UTF-16 code unit, so that [String.length] is the [.length] of the
    source.  A JavaScript number holding a time stamp is an integer of [Z]. *)

From Stdlib Require Import ZArith List String Ascii Bool Lia.
From Stdlib Require Import DecimalString Sorted.
From Stdlib Require Import DecimalZ DecimalPos.
Import ListNotations.

Local Open Scope string_scope.
Local Open Scope list_scope.

(** ** Data model *)

Inductive Role : Type := user | assistant.

Definition Role_eqb (a b : Role) : bool :=
  match a, b with
  | user, user | assistant, assistant => true
  | _, _ => false
  end.

Record Message : Type := mkMessage {
  messageId : string;
  role : Role;
  content : string;
  timestamp : Z
}.

Record Conversation : Type := mkConversation {
  id : string;
  title : string;
  messages : list Message;
  createdAt : Z
}.

(** The two [useState] cells of a provider. *)
Record State : Type := mkState {
  conversations : list Conversation;
  currentConversation : option Conversation
}.

(** ** JavaScript primitives used by the providers *)

(** [s.slice(b, e)] of ECMAScript: negative indices count from the end and
    both bounds are clamped to the length. *)
Definition slice (s : string) (b e : Z) : string :=
  let len := Z.of_nat (String.length s) in
  let from := if (b <? 0)%Z then Z.max (len + b) 0 else Z.min b len in
  let to := if (e <? 0)%Z then Z.max (len + e) 0 else Z.min e len in
  substring (Z.to_nat from) (Z.to_nat (Z.max (to - from) 0)) s.

(** The text a template literal substitutes for an integral number. *)
Definition numberToString (n : Z) : string :=
  NilZero.string_of_int (Z.to_int n).

(** [c.id === conversationId] *)
Definition hasId (conversationId : string) (c : Conversation) : bool :=
  String.eqb (id c) conversationId.

(** [c.messages.length > 0] *)
Definition hasMessages (c : Conversation) : bool :=
  (0 <? List.length (messages c))%nat.

(** ** Effects of an operation

    An operation is started from a render of the component: it reads the
    two cells as the render closed over them, enqueues updates of the cells,
    may write to the console, and either returns or throws.  Each operation
    is run to completion from an up-to-date render, the answers of the
    backing service and the readings of [Date.now()] and [Math.random()]
    being inputs. *)

Inductive Completion (A : Type) : Type :=
| Returned (a : A)
| Thrown (error : string).
Arguments Returned {A} a.
Arguments Thrown {A} error.

(** One [console.error(label, error)] call; [error] is absent when the call
    has a single argument. *)
Record LogEntry : Type := mkLog { label : string; logged : option string }.

Definition Op (A : Type) : Type :=
  State -> Completion A * State * list LogEntry.

Definition ret {A} (a : A) : Op A := fun st => (Returned a, st, []).

Definition throw {A} (error : string) : Op A := fun st => (Thrown error, st, []).

Definition bind {A B} (m : Op A) (k : A -> Op B) : Op B := fun st =>
  match m st with
  | (Returned a, st1, log1) =>
      match k a st1 with
      | (r, st2, log2) => (r, st2, log1 ++ log2)
      end
  | (Thrown error, st1, log1) => (Thrown error, st1, log1)
  end.

Notation "x <- m ;; k" := (bind m (fun x => k))
  (at level 61, m at next level, right associativity).
Notation "m ;; k" := (bind m (fun _ => k))
  (at level 61, right associativity).

(** [try { body } catch (error) { handler }] *)
Definition tryCatch {A} (body : Op A) (handler : string -> Op A) : Op A :=
  fun st =>
    match body st with
    | (Returned a, st1, log1) => (Returned a, st1, log1)
    | (Thrown error, st1, log1) =>
        match handler error st1 with
        | (r, st2, log2) => (r, st2, log1 ++ log2)
        end
    end.

(** The values of the cells the running callback closed over. *)
Definition withRender {A} (k : State -> Op A) : Op A := fun st => k st st.

(** [setConversations(value)] *)
Definition setConversations (value : list Conversation) : Op unit :=
  fun st => (Returned tt, mkState value (currentConversation st), []).

(** [setConversations(prev => f(prev))] *)
Definition updateConversations
    (f : list Conversation -> list Conversation) : Op unit :=
  fun st => (Returned tt, mkState (f (conversations st)) (currentConversation st), []).

(** [setCurrentConversation(value)] *)
Definition setCurrentConversation (value : option Conversation) : Op unit :=
  fun st => (Returned tt, mkState (conversations st) value, []).

Definition consoleError (l : string) (error : option string) : Op unit :=
  fun st => (Returned tt, st, [mkLog l error]).

(** [await call], the answer of the backing service being [answer]. *)
Definition await {A} (answer : Completion A) : Op A :=
  fun st => (answer, st, []).

Definition outcome {A} (r : Completion A * State * list LogEntry) : Completion A :=
  fst (fst r).
Definition after {A} (r : Completion A * State * list LogEntry) : State :=
  snd (fst r).
Definition console {A} (r : Completion A * State * list LogEntry) : list LogEntry :=
  snd r.

(** ** Code shared by the three providers *)

(** The title expression of [addMessage]:
    [c.messages.length === 0 && role === 'user'
       ? content.slice(0, 50) + (content.length > 50 ? '...' : '')
       : c.title] *)
Definition updatedTitle (c : Conversation) (r : Role) (text : string) : string :=
  if ((List.length (messages c) =? 0)%nat && Role_eqb r user)%bool
  then slice text 0 50 ++ (if (50 <? String.length text)%nat then "..." else "")
  else title c.

(** [{ ...c, messages: [...c.messages, newMessage], title: ... }] *)
Definition updatedConversation
    (c : Conversation) (r : Role) (text : string) (newMessage : Message)
    : Conversation :=
  {| id := id c;
     title := updatedTitle c r text;
     messages := messages c ++ [newMessage];
     createdAt := createdAt c |}.

(** [prev.map(c => c.id === target.id ? updated : c)] *)
Definition replaceById (target updated : Conversation)
    (prev : list Conversation) : list Conversation :=
  map (fun c => if hasId (id target) c then updated else c) prev.

(** [conversations.find(c => c.id === conversationId)] followed by
    [if (conversation) setCurrentConversation(conversation)]; the same text
    in the three providers. *)
Definition switchConversation (conversationId : string) : Op unit :=
  withRender (fun render =>
    match find (hasId conversationId) (conversations render) with
    | Some conversation => setCurrentConversation (Some conversation)
    | None => ret tt
    end).

(** [currentConversation?.id === conversationId] *)
Definition currentHasId (render : State) (conversationId : string) : bool :=
  match currentConversation render with
  | Some c => hasId conversationId c
  | None => false
  end.

(** The object literal of a new conversation; [tId] and [tCreated] are the
    two readings of [Date.now()], in the order of evaluation. *)
Definition freshConversation (tId tCreated : Z) : Conversation :=
  {| id := "conv-" ++ numberToString tId;
     title := "New Conversation";
     messages := [];
     createdAt := tCreated |}.

(** The object literal of a new message; [tId] and [tStamp] are the two
    readings of [Date.now()] and [rnd] is the text of [Math.random()]. *)
Definition freshMessage (tId : Z) (rnd : string) (tStamp : Z)
    (r : Role) (text : string) : Message :=
  {| messageId := "msg-" ++ numberToString tId ++ "-" ++ rnd;
     role := r;
     content := text;
     timestamp := tStamp |}.

(** ** The provider of src/unnamed/part_000 *)

Module Ephemeral.

(** The effect run on mount. *)
Definition mount (tId tCreated : Z) : Op unit :=
  let initialConversation := freshConversation tId tCreated in
  setConversations [initialConversation] ;;
  setCurrentConversation (Some initialConversation).

Definition createConversation (tId tCreated : Z) : Op Conversation :=
  withRender (fun render =>
    let conversationsWithMessages := filter hasMessages (conversations render) in
    let newConversation := freshConversation tId tCreated in
    setConversations (newConversation :: conversationsWithMessages) ;;
    setCurrentConversation (Some newConversation) ;;
    ret newConversation).

(** [targetConversation || currentConversation] *)
Definition conversationToUpdate
    (targetConversation : option Conversation) (render : State)
    : option Conversation :=
  match targetConversation with
  | Some c => Some c
  | None => currentConversation render
  end.

Definition addMessage (r : Role) (text : string)
    (targetConversation : option Conversation)
    (tId : Z) (rnd : string) (tStamp : Z) : Op Conversation :=
  withRender (fun render =>
    match conversationToUpdate targetConversation render with
    | None =>
        consoleError "No conversation to add message to" None ;;
        throw "No conversation available"
    | Some target =>
        let newMessage := freshMessage tId rnd tStamp r text in
        let updated := updatedConversation target r text newMessage in
        updateConversations (replaceById target updated) ;;
        (if (match targetConversation with None => true | Some _ => false end
             || currentHasId render (id target))%bool
         then setCurrentConversation (Some updated)
         else ret tt) ;;
        ret updated
    end).

Definition deleteConversation (conversationId : string)
    (tId tCreated : Z) : Op unit :=
  withRender (fun render =>
    let updatedConversations :=
      filter (fun c => negb (hasId conversationId c)) (conversations render) in
    setConversations updatedConversations ;;
    if currentHasId render conversationId then
      let conversationsWithMessages := filter hasMessages updatedConversations in
      match conversationsWithMessages with
      | first :: _ => setCurrentConversation (Some first)
      | [] =>
          let newConversation := freshConversation tId tCreated in
          setConversations [newConversation] ;;
          setCurrentConversation (Some newConversation)
      end
    else ret tt).

End Ephemeral.

(** ** The in-memory provider of src/contexts/ConversationContext.tsx *)

Module Local.

Definition mount := Ephemeral.mount.

Definition createConversation (tId tCreated : Z) : Op unit :=
  withRender (fun render =>
    let conversationsWithMessages := filter hasMessages (conversations render) in
    let newConversation := freshConversation tId tCreated in
    setConversations (newConversation :: conversationsWithMessages) ;;
    setCurrentConversation (Some newConversation)).

Definition addMessage (r : Role) (text : string)
    (tId : Z) (rnd : string) (tStamp : Z) : Op unit :=
  withRender (fun render =>
    match currentConversation render with
    | None => consoleError "No current conversation to add message to" None
    | Some current =>
        let newMessage := freshMessage tId rnd tStamp r text in
        let updated := updatedConversation current r text newMessage in
        updateConversations (replaceById current updated) ;;
        setCurrentConversation (Some updated)
    end).

(** The text of [deleteConversation] is that of part_000. *)
Definition deleteConversation := Ephemeral.deleteConversation.

End Local.

(** ** The provider backed by [conversationAPI] *)

Module Remote.

(** [created] is the answer of [conversationAPI.createConversation]. *)
Definition createNewConversation (created : Completion Conversation) : Op unit :=
  tryCatch
    (newConversation <- await created ;;
     updateConversations (fun prev => newConversation :: prev) ;;
     setCurrentConversation (Some newConversation))
    (fun error => consoleError "Failed to create conversation:" (Some error)).

(** [appended] is the answer of [conversationAPI.addMessage]. *)
Definition addMessage (r : Role) (text : string)
    (appended : Completion Message) : Op unit :=
  withRender (fun render =>
    match currentConversation render with
    | None => ret tt
    | Some current =>
        tryCatch
          (newMessage <- await appended ;;
           let updated := updatedConversation current r text newMessage in
           setCurrentConversation (Some updated) ;;
           updateConversations (replaceById updated updated))
          (fun error =>
             consoleError "Failed to add message:" (Some error) ;;
             throw error)
    end).

(** [deleted] is the answer of [conversationAPI.deleteConversation] and
    [created] that of the [createConversation] call made when nothing
    remains. *)
Definition deleteConversation (conversationId : string)
    (deleted : Completion unit) (created : Completion Conversation) : Op unit :=
  withRender (fun render =>
    tryCatch
      (await deleted ;;
       updateConversations (filter (fun c => negb (hasId conversationId c))) ;;
       if currentHasId render conversationId then
         let remaining :=
           filter (fun c => negb (hasId conversationId c)) (conversations render) in
         match remaining with
         | first :: _ => setCurrentConversation (Some first)
         | [] => createNewConversation created
         end
       else ret tt)
      (fun error => consoleError "Failed to delete conversation:" (Some error))).

End Remote.

(** ** Predicates of the specification *)



(** The title of the current conversation, when there is one. *)
Definition currentTitle (st : State) : option string :=
  option_map title (currentConversation st).

(** [conversationId] is the [id] of no conversation of the collection. *)
Definition absent (conversationId : string) (st : State) : Prop :=
  ~ In conversationId (map id (conversations st)).

(** ** States and inputs used in the examples *)

(** The cells before the mount effect has run. *)
Definition unmounted : State := mkState [] None.

(** A provider mounted at time 1000. *)
Definition mounted : State := after (Ephemeral.mount 1000 1000 unmounted).

Definition foodWaste : string :=
  "Analyze the problem of food waste in restaurants".

Definition serverMessage (r : Role) (text : string) : Message :=
  {| messageId := "7"; role := r; content := text; timestamp := 2000 |}.

(** A mounted remote provider holding one conversation issued by the
    server. *)
Definition serverConversation : Conversation :=
  {| id := "41"; title := "New Conversation"; messages := []; createdAt := 900 |}.

Definition loaded : State :=
  mkState [serverConversation] (Some serverConversation).

(** The filter of [deleteConversation]: [c => c.id !== conversationId]. *)
Definition without (conversationId : string) (l : list Conversation)
    : list Conversation :=
  filter (fun c => negb (hasId conversationId c)) l.

(** The collection lists the conversations newest first. *)
Definition newestFirst (l : list Conversation) : Prop :=
  StronglySorted (fun a b => (createdAt b <= createdAt a)%Z) l.


(** Three conversations on a server: the current one, an abandoned empty
    one and an older one with a message. *)
Definition answered (n : string) (t : Z) : Conversation :=
  {| id := n; title := "Pricing"; createdAt := t;
     messages := [ {| messageId := "1"; role := user;
                      content := "Pricing"; timestamp := t |} ] |}.

Definition abandoned : Conversation :=
  {| id := "42"; title := "New Conversation"; messages := []; createdAt := 950 |}.

Definition threeOnServer : State :=
  mkState [answered "43" 990; abandoned; answered "40" 800]
          (Some (answered "43" 990)).

(** ** Sequences of [addMessage] calls *)

(** One [addMessage(role, content)] call on the current conversation of a
    provider, with the inputs it consumes. *)
Inductive AddMessageCall : Type :=
| EphemeralCall (r : Role) (text : string) (tId : Z) (rnd : string) (tStamp : Z)
| LocalCall (r : Role) (text : string) (tId : Z) (rnd : string) (tStamp : Z)
| RemoteCall (r : Role) (text : string) (answer : Completion Message).

Definition perform (k : AddMessageCall) (st : State) : State :=
  match k with
  | EphemeralCall r text tId rnd tStamp =>
      after (Ephemeral.addMessage r text None tId rnd tStamp st)
  | LocalCall r text tId rnd tStamp =>
      after (Local.addMessage r text tId rnd tStamp st)
  | RemoteCall r text answer =>
      after (Remote.addMessage r text answer st)
  end.

(** The calls made one per render: each is made from a render that shows
    the cells the call before it left. *)
Definition performAll (calls : list AddMessageCall) (st : State) : State :=
  fold_left (fun s k => perform k s) calls st.

(** The role and content of the message a call appends, when the backing
    service does not refuse it. *)
Definition appended (k : AddMessageCall) : option (Role * string) :=
  match k with
  | EphemeralCall r text _ _ _ => Some (r, text)
  | LocalCall r text _ _ _ => Some (r, text)
  | RemoteCall r text (Returned _) => Some (r, text)
  | RemoteCall _ _ (Thrown _) => None
  end.

(** ** The frame of [addMessage] *)



(** ** Identifiers *)

(** No two conversations of the collection carry the same id. *)
Definition uniqueIds (st : State) : Prop := NoDup (map id (conversations st)).

(** A provider mounted at time 1000 whose conversation receives a message
    and which is asked for a new conversation while [Date.now()] still
    reads 1000. *)
Definition createdInSameMillisecond : State :=
  after (Ephemeral.createConversation 1000 1000
           (after (Ephemeral.addMessage user "Pricing" None 1000 "0.5" 1000
                     mounted))).

(** ** Sequences of operations of the part_000 provider *)

(** One call of an operation of the provider, with the inputs it consumes. *)
Inductive Action : Type :=
| Create (tId tCreated : Z)
| Add (r : Role) (text : string) (target : option Conversation)
      (tId : Z) (rnd : string) (tStamp : Z)
| Switch (conversationId : string)
| Delete (conversationId : string) (tId tCreated : Z).

Definition act (a : Action) (st : State) : State :=
  match a with
  | Create tId tCreated => after (Ephemeral.createConversation tId tCreated st)
  | Add r text target tId rnd tStamp =>
      after (Ephemeral.addMessage r text target tId rnd tStamp st)
  | Switch conversationId => after (switchConversation conversationId st)
  | Delete conversationId tId tCreated =>
      after (Ephemeral.deleteConversation conversationId tId tCreated st)
  end.

(** The operations called one per render: each is called from a render that
    shows the cells the operation before it left. *)
Definition actAll (actions : list Action) (st : State) : State :=
  fold_left (fun s a => act a s) actions st.

(** There is a current conversation and the collection holds it. *)
Definition currentListed (st : State) : Prop :=
  exists c, currentConversation st = Some c /\ In c (conversations st).

(** Every conversation of the collection was created by [freshConversation]
    from readings of the clock not later than [now]. *)
Definition stampedBy (now : Z) (st : State) : Prop :=
  forall c, In c (conversations st) ->
    (createdAt c <= now)%Z /\
    exists t, (t <= now)%Z /\ id c = ("conv-" ++ numberToString t)%string.

(** The readings of [Date.now()] that name and date new conversations go
    strictly up from [now], and messages are added to the current
    conversation. *)
Fixpoint ticking (now : Z) (actions : list Action) : Prop :=
  match actions with
  | [] => True
  | Create tId tCreated :: rest =>
      (now < tId)%Z /\ (tId <= tCreated)%Z /\ ticking tCreated rest
  | Delete _ tId tCreated :: rest =>
      (now < tId)%Z /\ (tId <= tCreated)%Z /\ ticking tCreated rest
  | Add _ _ target _ _ _ :: rest => target = None /\ ticking now rest
  | Switch _ :: rest => ticking now rest
  end.

(** What the operations of part_000 keep when the clock goes up: distinct
    ids, newest first, a listed current conversation, and the provenance of
    every conversation. *)
Definition orderly (now : Z) (st : State) : Prop :=
  uniqueIds st /\ newestFirst (conversations st) /\
  currentListed st /\ stampedBy now st.

(** The call appends a message. *)
Definition appends (k : AddMessageCall) : bool :=
  match appended k with
  | Some _ => true
  | None => false
  end.

(** ** Components with cells of their own

    The effects of an operation, over the cells [S] of a component. *)

Definition Eff (S A : Type) : Type := S -> Completion A * S * list LogEntry.

Definition retE {S A} (a : A) : Eff S A := fun s => (Returned a, s, []).

Definition bindE {S A B} (m : Eff S A) (k : A -> Eff S B) : Eff S B := fun s =>
  match m s with
  | (Returned a, s1, log1) =>
      match k a s1 with
      | (r, s2, log2) => (r, s2, log1 ++ log2)
      end
  | (Thrown error, s1, log1) => (Thrown error, s1, log1)
  end.

Declare Scope eff_scope.
Delimit Scope eff_scope with eff.
Notation "x <- m ;; k" := (bindE m (fun x => k))
  (at level 61, m at next level, right associativity) : eff_scope.
Notation "m ;; k" := (bindE m (fun _ => k))
  (at level 61, right associativity) : eff_scope.

(** [try { body } catch (error) { handler }] *)
Definition tryCatchE {S A} (body : Eff S A) (handler : string -> Eff S A)
    : Eff S A :=
  fun s =>
    match body s with
    | (Returned a, s1, log1) => (Returned a, s1, log1)
    | (Thrown error, s1, log1) =>
        match handler error s1 with
        | (r, s2, log2) => (r, s2, log1 ++ log2)
        end
    end.

(** [try { body } finally { finalizer }]: the finalizer runs whatever the
    body did, and the completion of the body stands unless the finalizer
    throws. *)
Definition tryFinallyE {S A} (body : Eff S A) (finalizer : Eff S unit)
    : Eff S A :=
  fun s =>
    match body s with
    | (r, s1, log1) =>
        match finalizer s1 with
        | (Returned _, s2, log2) => (r, s2, log1 ++ log2)
        | (Thrown error, s2, log2) => (Thrown error, s2, log1 ++ log2)
        end
    end.

Definition awaitE {S A} (answer : Completion A) : Eff S A :=
  fun s => (answer, s, []).

Definition consoleErrorE {S} (l : string) (error : option string) : Eff S unit :=
  fun s => (Returned tt, s, [mkLog l error]).

(** The values of the cells the running callback closed over. *)
Definition withCells {S A} (k : S -> Eff S A) : Eff S A := fun s => k s s.

(** An operation of the provider, run on the provider's cells inside [S]. *)
Definition onCells {S A} (get : S -> State) (set : State -> S -> S) (m : Op A)
    : Eff S A :=
  fun s =>
    match m (get s) with
    | (r, st, log) => (r, set st s, log)
    end.

(** A call of an asynchronous function whose promise is dropped: its effects
    take place, its completion reaches nobody. *)
Definition notAwaited {S A} (m : Eff S A) : Eff S unit :=
  fun s =>
    match m s with
    | (_, s1, log) => (Returned tt, s1, log)
    end.

(** A [useState] setter of the component. *)
Definition setCell {S} (set : S -> S) : Eff S unit :=
  fun s => (Returned tt, set s, []).

(** ** The rest of the provider backed by [conversationAPI] *)

Module Session.

(** The three [useState] cells of the provider. *)
Record Cells : Type := mkCells {
  store : State;
  isLoading : bool
}.

Definition onStore {A} (m : Op A) : Eff Cells A :=
  onCells store (fun st s => mkCells st (isLoading s)) m.

Definition setIsLoading (value : bool) : Eff Cells unit :=
  setCell (fun s => mkCells (store s) value).

(** [listed] is the answer of [conversationAPI.getConversations] and
    [created] that of the [createConversation] call made when the list is
    empty. *)
Definition loadConversations (listed : Completion (list Conversation))
    (created : Completion Conversation) : Eff Cells unit :=
  tryFinallyE
    (tryCatchE
       (setIsLoading true ;;
        data <- awaitE listed ;;
        onStore (setConversations data) ;;
        match data with
        | first :: _ => onStore (setCurrentConversation (Some first))
        | [] => onStore (Remote.createNewConversation created)
        end)%eff
       (fun error => consoleErrorE "Failed to load conversations:" (Some error)))
    (setIsLoading false).

(** The effect run when [user?.id] changes. *)
Definition userEffect {User : Type} (signedIn : option User)
    (listed : Completion (list Conversation))
    (created : Completion Conversation) : Eff Cells unit :=
  match signedIn with
  | None =>
      (onStore (setConversations []) ;;
       onStore (setCurrentConversation None))%eff
  | Some _ => loadConversations listed created
  end.

(** [deleted] and [created] are the answers of the two calls to the
    backing service. *)
Definition clearCurrentConversation (deleted : Completion unit)
    (created : Completion Conversation) : Op unit :=
  withRender (fun render =>
    match currentConversation render with
    | None => ret tt
    | Some current =>
        tryCatch
          (await deleted ;;
           Remote.createNewConversation created)
          (fun error => consoleError "Failed to clear conversation:" (Some error))
    end).

End Session.

Definition outcomeE {S A} (r : Completion A * S * list LogEntry) : Completion A :=
  fst (fst r).
Definition afterE {S A} (r : Completion A * S * list LogEntry) : S :=
  snd (fst r).
Definition consoleE {S A} (r : Completion A * S * list LogEntry) : list LogEntry :=
  snd r.

(** ** The chat view (AnalyzeView) *)

(** The white space and line terminators of ECMAScript among the code units
    below 256: tab, line feed, vertical tab, form feed, carriage return,
    space and no-break space. *)
Definition isWhiteSpace (c : ascii) : bool :=
  existsb (Nat.eqb (nat_of_ascii c)) [9; 10; 11; 12; 13; 32; 160].

Fixpoint trimStart (s : string) : string :=
  match s with
  | EmptyString => EmptyString
  | String c rest => if isWhiteSpace c then trimStart rest else s
  end.

Fixpoint trimEnd (s : string) : string :=
  match s with
  | EmptyString => EmptyString
  | String c rest =>
      match trimEnd rest with
      | EmptyString => if isWhiteSpace c then EmptyString else String c EmptyString
      | kept => String c kept
      end
  end.

(** [s.trim()] *)
Definition trim (s : string) : string := trimEnd (trimStart s).

(** [s.substring(b, e)] of ECMAScript: both bounds are clamped to the
    string and swapped when out of order. *)
Definition substringJS (s : string) (b e : Z) : string :=
  let len := Z.of_nat (String.length s) in
  let b' := Z.min (Z.max b 0) len in
  let e' := Z.min (Z.max e 0) len in
  let from := Z.min b' e' in
  let to := Z.max b' e' in
  substring (Z.to_nat from) (Z.to_nat (to - from)) s.

(** The [addMessage] of the remote provider as a render defines it: the
    current conversation it reads is the one of that render, whatever the
    cells have become when it is called.  [answer] is the answer of
    [conversationAPI.addMessage] to the request made of the id, the role
    and the content. *)
Definition addMessageOf (render : State) (r : Role) (text : string)
    (answer : string -> Role -> string -> Completion Message) : Op unit :=
  match currentConversation render with
  | None => ret tt
  | Some current =>
      tryCatch
        (newMessage <- await (answer (id current) r text) ;;
         let updated := updatedConversation current r text newMessage in
         setCurrentConversation (Some updated) ;;
         updateConversations (replaceById updated updated))
        (fun error =>
           consoleError "Failed to add message:" (Some error) ;;
           throw error)
  end.

Module AnalyzeView.

Inductive Tab : Type := analyze | history.

(** The role of a message of the chat service: ['user'] or ['model']. *)
Inductive ChatRole : Type := fromUser | fromModel.

Record ChatMessage : Type := mkChatMessage {
  chatRole : ChatRole;
  parts : string
}.

(** The cells of the provider the view reads through [useConversation] and
    the [useState] cells of the view. *)
Record Cells : Type := mkCells {
  provider : State;
  activeTab : Tab;
  input : string;
  isLoading : bool
}.

Definition onProvider {A} (m : Op A) : Eff Cells A :=
  onCells provider
    (fun st s => mkCells st (activeTab s) (input s) (isLoading s)) m.

Definition setActiveTab (value : Tab) : Eff Cells unit :=
  setCell (fun s => mkCells (provider s) value (input s) (isLoading s)).

Definition setInput (value : string) : Eff Cells unit :=
  setCell (fun s => mkCells (provider s) (activeTab s) value (isLoading s)).

Definition setIsLoading (value : bool) : Eff Cells unit :=
  setCell (fun s => mkCells (provider s) (activeTab s) (input s) value).

(** [msg => ({ role: msg.role === 'user' ? 'user' : 'model', parts: msg.content })] *)
Definition toChat (msg : Message) : ChatMessage :=
  {| chatRole := if Role_eqb (role msg) user then fromUser else fromModel;
     parts := content msg |}.

(** The history handed to the chat service: the messages of the current
    conversation of the render and the message being sent. *)
Definition chatHistory (render : Cells) (userMessage : string) : list ChatMessage :=
  match currentConversation (provider render) with
  | Some c => map toChat (messages c)
  | None => []
  end ++ [mkChatMessage fromUser userMessage].

(** The answers of the backing service to an append request. *)
Definition Append : Type := string -> Role -> string -> Completion Message.

(** [chat] is the chat service, [userAppend], [replyAppend] and
    [apologyAppend] the answers of the backing service to the append of the
    user message, of the reply, and of the message of the [catch] block.
    The handler and the [addMessage] it calls belong to one render: the
    three calls of [addMessage] read the current conversation of that
    render.  The calls on the event and on the input element change no cell
    and are left out. *)
Definition handleSubmit
    (chat : string -> list ChatMessage -> Completion string)
    (userAppend replyAppend apologyAppend : Append) : Eff Cells unit :=
  withCells (fun render =>
    let addMessage := addMessageOf (provider render) in
    if ((trim (input render) =? "")%string || isLoading render)%bool
    then retE tt
    else
      let userMessage := trim (input render) in
      (setInput "" ;;
       setIsLoading true ;;
       tryFinallyE
         (tryCatchE
            (onProvider (addMessage user userMessage userAppend) ;;
             let history := chatHistory render userMessage in
             response <- awaitE (chat userMessage history) ;;
             onProvider (addMessage assistant response replyAppend))
            (fun error =>
               onProvider
                 (addMessage assistant
                    ("Sorry, I encountered an error: " ++ error)%string
                    apologyAppend)))
         (setIsLoading false))%eff).

(** [if (e.key === 'Enter' && !e.shiftKey) handleSubmit(e)]: the promise of
    [handleSubmit] is neither awaited nor returned. *)
Definition handleKeyDown (key : string) (shiftKey : bool)
    (chat : string -> list ChatMessage -> Completion string)
    (userAppend replyAppend apologyAppend : Append) : Eff Cells unit :=
  if ((key =? "Enter")%string && negb shiftKey)%bool
  then notAwaited (handleSubmit chat userAppend replyAppend apologyAppend)
  else retE tt.

Definition handleConversationClick (conversationId : string) : Eff Cells unit :=
  (onProvider (switchConversation conversationId) ;;
   setActiveTab analyze)%eff.

(** The heading of a conversation in the history tab:
    [conv.messages[0]?.content.substring(0, 60) || 'New Conversation']
    followed by [conv.messages[0]?.content.length > 60 ? '...' : '']. *)
Definition historyHeading (conv : Conversation) : string :=
  match messages conv with
  | [] => "New Conversation"
  | first :: _ =>
      (if (substringJS (content first) 0 60 =? "")%string
       then "New Conversation"
       else substringJS (content first) 0 60)
      ++ (if (60 <? String.length (content first))%nat then "..." else "")
  end.

End AnalyzeView.

(** ** States of the chat view used in the examples *)

(** A backing service that stores what it is asked to append. *)
Definition echoAppend : AnalyzeView.Append :=
  fun _ r text => Returned (serverMessage r text).

(** A chat service that answers, and one that is out of quota. *)
Definition politeChat (_ : string) (_ : list AnalyzeView.ChatMessage)
    : Completion string :=
  Returned "Noted.".

Definition exhaustedChat (_ : string) (_ : list AnalyzeView.ChatMessage)
    : Completion string :=
  Thrown "429".

(** The view over the loaded provider, the user having typed a question. *)
Definition typing : AnalyzeView.Cells :=
  AnalyzeView.mkCells loaded AnalyzeView.analyze " Pricing? " false.

(** ** The graph of an analysis (AnalysisVisualizer)

    The response comes from a type declared outside the sources at hand; the
    fields read here are taken as they are used.  The id of a chunk is taken
    as the text a template literal substitutes for it. *)

Module AnalysisVisualizer.

Record Chunk : Type := mkChunk {
  chunkId : string;
  chunkTitle : string;
  analysis : string;
  key_insights : list string
}.

Record UserDrivenResponse : Type := mkResponse {
  refined_problem : string;
  chunks : list Chunk;
  solution_guide : list string
}.

Inductive Theme : Type := light | dark.

Inductive NodeType : Type := inputNode | outputNode | defaultNode.

Record Style : Type := mkStyle {
  background : string;
  color : string;
  border : string;
  borderRadius : string;
  width : Z;
  fontSize : option string
}.

(** The elements of [l] with their index, as [forEach] hands them over. *)
Definition indexed {A} (l : list A) : list (nat * A) :=
  combine (seq 0 (List.length l)) l.

Definition themed (theme : Theme) (whenDark whenLight : string) : string :=
  match theme with
  | dark => whenDark
  | light => whenLight
  end.

Section Layout.

(** The coordinates are floating-point numbers: the type of a position and
    the three computations of the source are taken as given.
    [chunkPosition index count] stands for the point at [radius] 300 and
    angle [index * 2 * Math.PI / count] around (550, 250), and
    [insightPosition index count insightIndex insightCount] for the point at
    radius 500 and angle [angle + (insightIndex - (insightCount - 1) / 2) * 0.3]. *)
Variable Position : Type.
Variable fixedPosition : Z -> Z -> Position.
Variable chunkPosition : nat -> nat -> Position.
Variable insightPosition : nat -> nat -> nat -> nat -> Position.

(** [label] holds the text of the elements of the label, in their order. *)
Record Node : Type := mkNode {
  nodeId : string;
  nodeType : NodeType;
  label : list string;
  position : Position;
  style : Style
}.

Definition problemNode (response : UserDrivenResponse) (theme : Theme) : Node :=
  {| nodeId := "problem";
     nodeType := inputNode;
     label := ["Problem";
               (substringJS (refined_problem response) 0 100 ++ "...")%string];
     position := fixedPosition 400 50;
     style := {| background := themed theme "#1a1a1a" "#f9fafb";
                 color := themed theme "#fff" "#000";
                 border := "2px solid " ++ themed theme "#666" "#999";
                 borderRadius := "12px";
                 width := 300;
                 fontSize := None |} |}.

Definition chunkNode (theme : Theme) (count index : nat) (chunk : Chunk) : Node :=
  {| nodeId := "chunk-" ++ chunkId chunk;
     nodeType := defaultNode;
     label := [chunkTitle chunk;
               (substringJS (analysis chunk) 0 80 ++ "...")%string;
               (numberToString (Z.of_nat (List.length (key_insights chunk)))
                ++ " insights")%string];
     position := chunkPosition index count;
     style := {| background := themed theme "#2a2a2a" "#fff";
                 color := themed theme "#e5e5e5" "#1a1a1a";
                 border := "2px solid " ++ themed theme "#4a4a4a" "#d1d5db";
                 borderRadius := "12px";
                 width := 250;
                 fontSize := None |} |}.

Definition insightNode (theme : Theme) (count index : nat) (chunk : Chunk)
    (insightIndex : nat) (insight : string) : Node :=
  {| nodeId := "insight-" ++ chunkId chunk ++ "-"
               ++ numberToString (Z.of_nat insightIndex);
     nodeType := defaultNode;
     label := [(substringJS insight 0 60 ++ "...")%string];
     position := insightPosition index count insightIndex
                   (List.length (key_insights chunk));
     style := {| background := themed theme "#3a3a3a" "#f3f4f6";
                 color := themed theme "#d1d5db" "#374151";
                 border := "1px solid " ++ themed theme "#555" "#9ca3af";
                 borderRadius := "8px";
                 width := 180;
                 fontSize := Some "11px" |} |}.

Definition solutionNode (response : UserDrivenResponse) (theme : Theme) : Node :=
  {| nodeId := "solution";
     nodeType := outputNode;
     label := ["Solution Guide";
               (numberToString (Z.of_nat (List.length (solution_guide response)))
                ++ " steps")%string];
     position := fixedPosition 450 700;
     style := {| background := themed theme "#1e3a1e" "#dcfce7";
                 color := themed theme "#86efac" "#166534";
                 border := "2px solid " ++ themed theme "#15803d" "#22c55e";
                 borderRadius := "12px";
                 width := 200;
                 fontSize := None |} |}.

(** The nodes pushed for one chunk: the chunk, then its insights. *)
Definition chunkNodes (theme : Theme) (count : nat) (entry : nat * Chunk)
    : list Node :=
  let (index, chunk) := entry in
  chunkNode theme count index chunk
  :: map (fun i => insightNode theme count index chunk (fst i) (snd i))
         (indexed (key_insights chunk)).

Definition initialNodes (response : UserDrivenResponse) (theme : Theme)
    : list Node :=
  problemNode response theme
  :: flat_map (chunkNodes theme (List.length (chunks response)))
              (indexed (chunks response))
  ++ [solutionNode response theme].

End Layout.

(** [markerEnd] is always [{ type: MarkerType.ArrowClosed, color }], the
    colour being that of the stroke. *)
Record Edge : Type := mkEdge {
  edgeId : string;
  source : string;
  target : string;
  animated : bool;
  stroke : string
}.

(** The edges pushed for one chunk: from the problem, to each insight, to
    the solution. *)
Definition chunkEdges (theme : Theme) (chunk : Chunk) : list Edge :=
  {| edgeId := "problem-chunk-" ++ chunkId chunk;
     source := "problem";
     target := "chunk-" ++ chunkId chunk;
     animated := true;
     stroke := themed theme "#666" "#999" |}
  :: map (fun i =>
            {| edgeId := "chunk-" ++ chunkId chunk ++ "-insight-"
                         ++ numberToString (Z.of_nat (fst i));
               source := "chunk-" ++ chunkId chunk;
               target := "insight-" ++ chunkId chunk ++ "-"
                         ++ numberToString (Z.of_nat (fst i));
               animated := false;
               stroke := themed theme "#4a4a4a" "#d1d5db" |})
         (indexed (key_insights chunk))
  ++ [ {| edgeId := "chunk-" ++ chunkId chunk ++ "-solution";
          source := "chunk-" ++ chunkId chunk;
          target := "solution";
          animated := true;
          stroke := themed theme "#15803d" "#22c55e" |} ].

Definition initialEdges (response : UserDrivenResponse) (theme : Theme)
    : list Edge :=
  flat_map (chunkEdges theme) (chunks response).

End AnalysisVisualizer.

(** An analysis of one chunk with one insight. *)
Definition smallAnalysis : AnalysisVisualizer.UserDrivenResponse :=
  AnalysisVisualizer.mkResponse "Food waste in restaurants"
    [AnalysisVisualizer.mkChunk "1" "Market" "Large and fragmented" ["Margins are thin"]]
    ["Measure"; "Forecast"].

(** ** Calls made from a given render

    A callback reads the cells of the render that defined it.  The
    operations above are called from a render that shows the cells as they
    are; the definitions below take the render apart from the cells, for the
    calls a handler makes one after the other from the render it belongs
    to. *)

(** [createConversation] of part_000 as a render defines it. *)
Definition createConversationOf (render : State) (tId tCreated : Z)
    : Op Conversation :=
  let conversationsWithMessages := filter hasMessages (conversations render) in
  let newConversation := freshConversation tId tCreated in
  setConversations (newConversation :: conversationsWithMessages) ;;
  setCurrentConversation (Some newConversation) ;;
  ret newConversation.

(** [addMessage] of part_000 as a render defines it. *)
Definition addMessageOfEphemeral (render : State) (r : Role) (text : string)
    (targetConversation : option Conversation)
    (tId : Z) (rnd : string) (tStamp : Z) : Op Conversation :=
  match Ephemeral.conversationToUpdate targetConversation render with
  | None =>
      consoleError "No conversation to add message to" None ;;
      throw "No conversation available"
  | Some target =>
      let newMessage := freshMessage tId rnd tStamp r text in
      let updated := updatedConversation target r text newMessage in
      updateConversations (replaceById target updated) ;;
      (if (match targetConversation with None => true | Some _ => false end
           || currentHasId render (id target))%bool
       then setCurrentConversation (Some updated)
       else ret tt) ;;
      ret updated
  end.

(** [addMessage] of the in-memory provider of ConversationContext.tsx as a
    render defines it. *)
Definition addMessageOfLocal (render : State) (r : Role) (text : string)
    (tId : Z) (rnd : string) (tStamp : Z) : Op unit :=
  match currentConversation render with
  | None => consoleError "No current conversation to add message to" None
  | Some current =>
      let newMessage := freshMessage tId rnd tStamp r text in
      let updated := updatedConversation current r text newMessage in
      updateConversations (replaceById current updated) ;;
      setCurrentConversation (Some updated)
  end.

(** The cells after the call [k] made from [render]. *)
Definition performFrom (render : State) (k : AddMessageCall) (st : State) : State :=
  match k with
  | EphemeralCall r text tId rnd tStamp =>
      after (addMessageOfEphemeral render r text None tId rnd tStamp st)
  | LocalCall r text tId rnd tStamp =>
      after (addMessageOfLocal render r text tId rnd tStamp st)
  | RemoteCall r text answer =>
      after (addMessageOf render r text (fun _ _ _ => answer) st)
  end.

(** The calls of one run of a handler: all are made from the render the
    handler belongs to, which shows the cells as the run finds them. *)
Definition performRun (calls : list AddMessageCall) (st : State) : State :=
  fold_left (fun s k => performFrom st k s) calls st.

(** Runs of handlers, one after the other. *)
Definition performRuns (runs : list (list AddMessageCall)) (st : State) : State :=
  fold_left (fun s calls => performRun calls s) runs st.

(** The role, the content and the message of what a call appends, when the
    backing service does not refuse it. *)
Definition delivered (k : AddMessageCall) : option (Role * string * Message) :=
  match k with
  | EphemeralCall r text tId rnd tStamp =>
      Some (r, text, freshMessage tId rnd tStamp r text)
  | LocalCall r text tId rnd tStamp =>
      Some (r, text, freshMessage tId rnd tStamp r text)
  | RemoteCall r text (Returned m) => Some (r, text, m)
  | RemoteCall _ _ (Thrown _) => None
  end.

(** The last delivery of a run. *)
Fixpoint lastDelivered (calls : list AddMessageCall)
    : option (Role * string * Message) :=
  match calls with
  | [] => None
  | k :: rest =>
      match lastDelivered rest with
      | Some d => Some d
      | None => delivered k
      end
  end.

(** The last delivery of each run that has one. *)
Fixpoint kept (runs : list (list AddMessageCall))
    : list (Role * string * Message) :=
  match runs with
  | [] => []
  | calls :: rest =>
      match lastDelivered calls with
      | Some d => d :: kept rest
      | None => kept rest
      end
  end.



(** ** Strings *)

Lemma substring_all (n : nat) (s : string) :
  String.length s <= n -> substring 0 n s = s.
Proof.
  revert n; induction s as [|a s IH]; intros [|n] H; simpl in *;
    try reflexivity; try lia.
  f_equal; apply IH; lia.
Qed.


Lemma slice_prefix (s : string) (n : nat) :
  slice s 0 (Z.of_nat n) = substring 0 (Nat.min n (String.length s)) s.
Proof.
  unfold slice.
  destruct (Z.ltb_spec (Z.of_nat n) 0) as [H|_]; [lia|].
  change (0 <? 0)%Z with false; cbv iota.
  replace (Z.to_nat (Z.min 0 (Z.of_nat (String.length s)))) with 0%nat by lia.
  f_equal; lia.
Qed.

Example slice_whole : slice "abcdef" 0 50 = "abcdef".
Proof. reflexivity. Qed.

Example slice_from_end : slice "abcdef" (-2) 10 = "ef".
Proof. reflexivity. Qed.

Example slice_to_end : slice "abcdef" 2 (-1) = "cde".
Proof. reflexivity. Qed.

Example slice_crossed : slice "abcdef" 4 2 = "".
Proof. reflexivity. Qed.

Example numberToString_examples :
  numberToString 0 = "0" /\ numberToString 1730000000000 = "1730000000000" /\
  numberToString (-5) = "-5".
Proof. repeat split. Qed.

Lemma slice_50 (s : string) :
  slice s 0 50 = substring 0 (Nat.min 50 (String.length s)) s.
Proof. exact (slice_prefix s 50). Qed.

Lemma append_empty_r (s : string) : (s ++ "")%string = s.
Proof. induction s as [|a s IH]; simpl; [reflexivity | now rewrite IH]. Qed.


Example title_of_eighty_characters :
  updatedTitle (freshConversation 1000 1000) user
    "0123456789012345678901234567890123456789012345678901234567890123456789ABCDEFGHIJ"
  = "01234567890123456789012345678901234567890123456789...".
Proof. reflexivity. Qed.

(** ** What each [addMessage] computes *)

Lemma Ephemeral_addMessage_current st c r text tId rnd tStamp :
  currentConversation st = Some c ->
  let u := updatedConversation c r text (freshMessage tId rnd tStamp r text) in
  Ephemeral.addMessage r text None tId rnd tStamp st
  = (Returned u, mkState (replaceById c u (conversations st)) (Some u), []).
Proof.
  intros E u; unfold Ephemeral.addMessage, withRender, Ephemeral.conversationToUpdate.
  rewrite E; reflexivity.
Qed.

Lemma Ephemeral_addMessage_target st c r text tId rnd tStamp :
  let u := updatedConversation c r text (freshMessage tId rnd tStamp r text) in
  Ephemeral.addMessage r text (Some c) tId rnd tStamp st
  = (Returned u,
     mkState (replaceById c u (conversations st))
             (if currentHasId st (id c) then Some u else currentConversation st),
     []).
Proof.
  intros u; unfold Ephemeral.addMessage, withRender, Ephemeral.conversationToUpdate.
  cbv [bind updateConversations orb ret].
  destruct (currentHasId st (id c)); reflexivity.
Qed.

Lemma Ephemeral_addMessage_none st r text tId rnd tStamp :
  currentConversation st = None ->
  Ephemeral.addMessage r text None tId rnd tStamp st
  = (Thrown "No conversation available", st,
     [mkLog "No conversation to add message to" None]).
Proof.
  intros E; unfold Ephemeral.addMessage, withRender, Ephemeral.conversationToUpdate.
  rewrite E; reflexivity.
Qed.

Lemma Local_addMessage_current st c r text tId rnd tStamp :
  currentConversation st = Some c ->
  let u := updatedConversation c r text (freshMessage tId rnd tStamp r text) in
  Local.addMessage r text tId rnd tStamp st
  = (Returned tt, mkState (replaceById c u (conversations st)) (Some u), []).
Proof.
  intros E u; unfold Local.addMessage, withRender; rewrite E; reflexivity.
Qed.

Lemma Local_addMessage_none st r text tId rnd tStamp :
  currentConversation st = None ->
  Local.addMessage r text tId rnd tStamp st
  = (Returned tt, st, [mkLog "No current conversation to add message to" None]).
Proof.
  intros E; unfold Local.addMessage, withRender; rewrite E; reflexivity.
Qed.

Lemma Remote_addMessage_ok st c r text m :
  currentConversation st = Some c ->
  let u := updatedConversation c r text m in
  Remote.addMessage r text (Returned m) st
  = (Returned tt, mkState (replaceById c u (conversations st)) (Some u), []).
Proof.
  intros E u; unfold Remote.addMessage, withRender; rewrite E; reflexivity.
Qed.

Lemma Remote_addMessage_failed st c r text error :
  currentConversation st = Some c ->
  Remote.addMessage r text (Thrown error) st
  = (Thrown error, st, [mkLog "Failed to add message:" (Some error)]).
Proof.
  intros E; unfold Remote.addMessage, withRender; rewrite E; reflexivity.
Qed.

Lemma Remote_addMessage_none st r text appended :
  currentConversation st = None ->
  Remote.addMessage r text appended st = (Returned tt, st, []).
Proof.
  intros E; unfold Remote.addMessage, withRender; rewrite E; reflexivity.
Qed.

(** ** Title derivation *)



(** ** Failures of [addMessage] *)

(** C4. In the remote provider an [addMessage] call whose backing append
    fails leaves the two cells, hence the messages of the targeted
    conversation, as they were and rethrows the error to the caller; in the
    in-memory providers an [addMessage] call that has a conversation to
    update returns. *)
Theorem addMessage_failed_append_keeps_state :
  forall (st : State) (c : Conversation),
    currentConversation st = Some c ->
    (forall r text error,
       let res := Remote.addMessage r text (Thrown error) st in
       outcome res = Thrown error /\
       after res = st /\
       currentConversation (after res) = Some c /\
       conversations (after res) = conversations st) /\
    (forall r text target tId rnd tStamp,
       exists u,
         outcome (Ephemeral.addMessage r text target tId rnd tStamp st)
         = Returned u) /\
    (forall r text tId rnd tStamp,
       outcome (Local.addMessage r text tId rnd tStamp st) = Returned tt).
Proof.
  intros st c Hcur; repeat split.
  - rewrite (Remote_addMessage_failed st c) by exact Hcur; reflexivity.
  - rewrite (Remote_addMessage_failed st c) by exact Hcur; reflexivity.
  - rewrite (Remote_addMessage_failed st c) by exact Hcur; exact Hcur.
  - rewrite (Remote_addMessage_failed st c) by exact Hcur; reflexivity.
  - intros r text [t|] tId rnd tStamp.
    + eexists; rewrite Ephemeral_addMessage_target; reflexivity.
    + eexists; rewrite (Ephemeral_addMessage_current st c) by exact Hcur;
        reflexivity.
  - intros; rewrite (Local_addMessage_current st c) by exact Hcur; reflexivity.
Qed.

Lemma addMessage_failed_append_keeps_state_witness :
  outcome (Remote.addMessage user foodWaste (Thrown "503") loaded) = Thrown "503" /\
  after (Remote.addMessage user foodWaste (Thrown "503") loaded) = loaded.
Proof.
  destruct (addMessage_failed_append_keeps_state loaded serverConversation eq_refl)
    as [Hremote _].
  destruct (Hremote user foodWaste "503") as [Hout [Hst _]].
  split; assumption.
Defined.

(** An in-memory [addMessage] with an explicit target returns whatever the
    cells hold. *)
Lemma Ephemeral_addMessage_target_returns st target r text tId rnd tStamp :
  exists u,
    outcome (Ephemeral.addMessage r text (Some target) tId rnd tStamp st)
    = Returned u.
Proof. eexists; rewrite Ephemeral_addMessage_target; reflexivity. Qed.

(** ** [switchConversation] *)

Lemma find_absent (conversationId : string) (l : list Conversation) :
  ~ In conversationId (map id l) -> find (hasId conversationId) l = None.
Proof.
  induction l as [|c l IH]; intros H; simpl in *; [reflexivity|].
  unfold hasId at 1.
  destruct (String.eqb_spec (id c) conversationId) as [E|_].
  - exfalso; apply H; left; exact E.
  - apply IH; intros Hin; apply H; right; exact Hin.
Qed.

Lemma find_hasId_some (conversationId : string) (l : list Conversation) c :
  find (hasId conversationId) l = Some c -> In c l /\ id c = conversationId.
Proof.
  intros H; apply find_some in H; destruct H as [Hin Hid]; split; [exact Hin|].
  unfold hasId in Hid; apply String.eqb_eq; exact Hid.
Qed.

(** C6, as the code has it. For an id that no conversation of the collection
    carries, [switchConversation] leaves the two cells unchanged, writes
    nothing to the console and returns as it does for a known id: no error
    reaches the caller. *)
Theorem switchConversation_absent_is_silent :
  forall (st : State) (conversationId : string),
    absent conversationId st ->
    switchConversation conversationId st = (Returned tt, st, []).
Proof.
  intros st cid H; unfold switchConversation, withRender.
  rewrite find_absent by exact H; reflexivity.
Qed.

Lemma switchConversation_absent_is_silent_witness :
  absent "conv-404" mounted /\
  switchConversation "conv-404" mounted = (Returned tt, mounted, []).
Proof.
  assert (H : absent "conv-404" mounted).
  { unfold absent; vm_compute; intros [E|[]]; discriminate E. }
  split; [exact H|].
  exact (switchConversation_absent_is_silent mounted "conv-404" H).
Defined.

(** C6, as the spec has it, fails: switching to an unknown id reports no
    error. *)
Lemma switchConversation_reports_no_error :
  absent "conv-404" mounted /\
  ~ exists error, outcome (switchConversation "conv-404" mounted) = Thrown error.
Proof.
  split.
  - unfold absent; vm_compute; intros [E|[]]; discriminate E.
  - intros [error H]; vm_compute in H; discriminate H.
Qed.

(** A known id makes the conversation found current and returns the same
    value. *)
Lemma switchConversation_present st conversationId c :
  find (hasId conversationId) (conversations st) = Some c ->
  switchConversation conversationId st
  = (Returned tt, mkState (conversations st) (Some c), []).
Proof.
  intros H; unfold switchConversation, withRender; rewrite H; reflexivity.
Qed.

(** ** [addMessage] without a conversation *)

(** C7, as the code has it. With no current conversation and no target,
    [addMessage] of part_000 throws ["No conversation available"] and leaves
    the cells unchanged; the in-memory [addMessage] of
    ConversationContext.tsx writes to the console and returns, and the remote
    one returns without a trace: both drop the message, and the cells are
    unchanged. *)
Theorem addMessage_without_conversation :
  forall (st : State) (r : Role) (text : string),
    currentConversation st = None ->
    (forall tId rnd tStamp,
       let res := Ephemeral.addMessage r text None tId rnd tStamp st in
       outcome res = Thrown "No conversation available" /\ after res = st /\
       console res = [mkLog "No conversation to add message to" None]) /\
    (forall tId rnd tStamp,
       let res := Local.addMessage r text tId rnd tStamp st in
       outcome res = Returned tt /\ after res = st /\
       console res = [mkLog "No current conversation to add message to" None]) /\
    (forall appended,
       Remote.addMessage r text appended st = (Returned tt, st, [])).
Proof.
  intros st r text Hnone; repeat split.
  - rewrite Ephemeral_addMessage_none by exact Hnone; reflexivity.
  - rewrite Ephemeral_addMessage_none by exact Hnone; reflexivity.
  - rewrite Ephemeral_addMessage_none by exact Hnone; reflexivity.
  - rewrite Local_addMessage_none by exact Hnone; reflexivity.
  - rewrite Local_addMessage_none by exact Hnone; reflexivity.
  - rewrite Local_addMessage_none by exact Hnone; reflexivity.
  - intros; apply Remote_addMessage_none; exact Hnone.
Qed.

Lemma addMessage_without_conversation_witness :
  outcome (Ephemeral.addMessage user foodWaste None 1001 "0.5" 1001 unmounted)
  = Thrown "No conversation available" /\
  Remote.addMessage user foodWaste (Returned (serverMessage user foodWaste)) unmounted
  = (Returned tt, unmounted, []).
Proof.
  destruct (addMessage_without_conversation unmounted user foodWaste eq_refl)
    as [Heph [_ Hrem]].
  split; [exact (proj1 (Heph 1001%Z "0.5" 1001%Z)) | apply Hrem].
Defined.

(** C7, as the spec has it, fails: the remote [addMessage] without a current
    conversation reports no error; neither does the in-memory one of
    ConversationContext.tsx. *)
Lemma silent_addMessage_with_no_conversation :
  currentConversation unmounted = None /\
  (~ exists error,
       outcome (Remote.addMessage user foodWaste
                  (Returned (serverMessage user foodWaste)) unmounted)
       = Thrown error) /\
  (~ exists error,
       outcome (Local.addMessage user foodWaste 1001 "0.5" 1001 unmounted)
       = Thrown error).
Proof.
  split; [reflexivity|].
  split; intros [error H]; vm_compute in H; discriminate H.
Qed.

(** ** What [createConversation] and [deleteConversation] compute *)

Lemma Ephemeral_createConversation_eq st tId tCreated :
  let n := freshConversation tId tCreated in
  Ephemeral.createConversation tId tCreated st
  = (Returned n, mkState (n :: filter hasMessages (conversations st)) (Some n), []).
Proof. reflexivity. Qed.

Lemma Local_createConversation_eq st tId tCreated :
  let n := freshConversation tId tCreated in
  Local.createConversation tId tCreated st
  = (Returned tt, mkState (n :: filter hasMessages (conversations st)) (Some n), []).
Proof. reflexivity. Qed.

Lemma Remote_createNewConversation_ok st n :
  Remote.createNewConversation (Returned n) st
  = (Returned tt, mkState (n :: conversations st) (Some n), []).
Proof. reflexivity. Qed.

Lemma Remote_createNewConversation_failed st error :
  Remote.createNewConversation (Thrown error) st
  = (Returned tt, st, [mkLog "Failed to create conversation:" (Some error)]).
Proof. reflexivity. Qed.

Lemma Ephemeral_deleteConversation_current st conversationId tId tCreated :
  currentHasId st conversationId = true ->
  Ephemeral.deleteConversation conversationId tId tCreated st
  = match filter hasMessages (without conversationId (conversations st)) with
    | first :: _ =>
        (Returned tt,
         mkState (without conversationId (conversations st)) (Some first), [])
    | [] =>
        (Returned tt,
         mkState [freshConversation tId tCreated]
                 (Some (freshConversation tId tCreated)), [])
    end.
Proof.
  intros H; unfold Ephemeral.deleteConversation, withRender, without.
  cbv [bind setConversations]; rewrite H.
  destruct (filter hasMessages _); reflexivity.
Qed.

Lemma Ephemeral_deleteConversation_other st conversationId tId tCreated :
  currentHasId st conversationId = false ->
  Ephemeral.deleteConversation conversationId tId tCreated st
  = (Returned tt,
     mkState (without conversationId (conversations st)) (currentConversation st),
     []).
Proof.
  intros H; unfold Ephemeral.deleteConversation, withRender, without.
  cbv [bind setConversations]; rewrite H; reflexivity.
Qed.

Lemma Remote_deleteConversation_current st conversationId created :
  currentHasId st conversationId = true ->
  Remote.deleteConversation conversationId (Returned tt) created st
  = match without conversationId (conversations st) with
    | first :: rest => (Returned tt, mkState (first :: rest) (Some first), [])
    | [] =>
        match created with
        | Returned n => (Returned tt, mkState [n] (Some n), [])
        | Thrown error =>
            (Returned tt, mkState [] (currentConversation st),
             [mkLog "Failed to create conversation:" (Some error)])
        end
    end.
Proof.
  intros H; unfold Remote.deleteConversation, withRender, without.
  cbv [tryCatch bind await updateConversations]; rewrite H; cbn [conversations].
  destruct (filter _ (conversations st)) as [|first rest]; [|reflexivity].
  destruct created; reflexivity.
Qed.

Lemma Remote_deleteConversation_failed st conversationId error created :
  Remote.deleteConversation conversationId (Thrown error) created st
  = (Returned tt, st, [mkLog "Failed to delete conversation:" (Some error)]).
Proof. reflexivity. Qed.

(** ** Creating a conversation *)

(** C8, as the code has it. [createConversation] puts the conversation it
    builds, which has no message, at the front of the collection and makes
    it current; the remote [createNewConversation] does so with the
    conversation the backing service answers.  When the backing create call
    fails the cells are left exactly as they were, the error is written to
    the console, and the call returns: no error reaches the caller. *)
Theorem createConversation_front_and_current :
  (forall st tId tCreated,
     let n := freshConversation tId tCreated in
     let res := Ephemeral.createConversation tId tCreated st in
     outcome res = Returned n /\ messages n = [] /\
     currentConversation (after res) = Some n /\
     exists rest, conversations (after res) = n :: rest) /\
  (forall st tId tCreated,
     let n := freshConversation tId tCreated in
     let res := Local.createConversation tId tCreated st in
     outcome res = Returned tt /\ messages n = [] /\
     currentConversation (after res) = Some n /\
     exists rest, conversations (after res) = n :: rest) /\
  (forall st n,
     let res := Remote.createNewConversation (Returned n) st in
     outcome res = Returned tt /\
     currentConversation (after res) = Some n /\
     conversations (after res) = n :: conversations st) /\
  (forall st error,
     let res := Remote.createNewConversation (Thrown error) st in
     outcome res = Returned tt /\
     after res = st /\
     console res = [mkLog "Failed to create conversation:" (Some error)]).
Proof.
  repeat split; try reflexivity; eexists; reflexivity.
Qed.

(** C8, as the spec has it, fails: a failed backing create reports nothing
    to the caller. *)
Lemma createNewConversation_swallows_failure :
  ~ exists error,
      outcome (Remote.createNewConversation (Thrown "503") loaded) = Thrown error.
Proof. intros [error H]; vm_compute in H; discriminate H. Qed.

(** ** Pruning of empty conversations *)

Lemma hasMessages_true (c : Conversation) :
  hasMessages c = true <-> messages c <> [].
Proof.
  unfold hasMessages; destruct (messages c) as [|m l]; cbn; split; intros H;
    try reflexivity; try discriminate H; try discriminate;
    try (exfalso; apply H; reflexivity).
Qed.


(** C2, as the code has it. After [createConversation] of an in-memory
    provider the collection is the new conversation followed by the
    conversations that had messages, in their order: the new one is current,
    every conversation with a message remains, and every other conversation
    without messages is gone.  The remote [createNewConversation] prunes
    nothing: the collection is the conversation answered by the backing
    service followed by the whole previous collection. *)
Theorem createConversation_prunes_empty :
  forall (st : State) (tId tCreated : Z),
    let n := freshConversation tId tCreated in
    (forall st',
       st' = after (Ephemeral.createConversation tId tCreated st) \/
       st' = after (Local.createConversation tId tCreated st) ->
       currentConversation st' = Some n /\
       conversations st' = n :: filter hasMessages (conversations st) /\
       (forall c, In c (conversations st) -> messages c <> [] ->
                  In c (conversations st')) /\
       (forall c, In c (conversations st') -> c <> n ->
                  messages c <> [] /\ In c (conversations st)) /\
       (forall c, In c (conversations st) -> messages c = [] -> c <> n ->
                  ~ In c (conversations st'))) /\
    (forall m,
       let st' := after (Remote.createNewConversation (Returned m) st) in
       currentConversation st' = Some m /\
       conversations st' = m :: conversations st).
Proof.
  intros st tId tCreated n; split.
  - intros st' Hst'.
    assert (E : st' = mkState (n :: filter hasMessages (conversations st)) (Some n)).
    { destruct Hst' as [-> | ->]; reflexivity. }
    subst st'; cbn [currentConversation conversations].
    split; [reflexivity|]; split; [reflexivity|]; repeat split.
    + right; apply filter_In; split; [assumption|].
      apply hasMessages_true; assumption.
    + destruct H as [E | Hin]; [congruence|].
      apply filter_In in Hin; apply hasMessages_true; tauto.
    + destruct H as [E | Hin]; [congruence|].
      apply filter_In in Hin; tauto.
    + intros c Hin Hempty Hne [E | Hin']; [congruence|].
      apply filter_In in Hin'; destruct Hin' as [_ Hm].
      apply hasMessages_true in Hm; contradiction.
  - intros m; split; reflexivity.
Qed.

Lemma createConversation_prunes_empty_witness :
  currentConversation (after (Ephemeral.createConversation 1005 1005 mounted))
  = Some (freshConversation 1005 1005) /\
  conversations (after (Ephemeral.createConversation 1005 1005 mounted))
  = [freshConversation 1005 1005].
Proof.
  destruct (createConversation_prunes_empty mounted 1005 1005) as [Hlocal _].
  destruct (Hlocal (after (Ephemeral.createConversation 1005 1005 mounted))
              (or_introl eq_refl)) as [Hcur [Hall _]].
  split; [exact Hcur | exact Hall].
Defined.

(** C2, as the spec has it, fails in the remote provider: an empty
    conversation that is not the new current one survives the creation. *)
Lemma createNewConversation_keeps_empty :
  let st' := after (Remote.createNewConversation (Returned abandoned) loaded) in
  currentConversation st' = Some abandoned /\
  In serverConversation (conversations st') /\
  serverConversation <> abandoned /\
  messages serverConversation = [].
Proof.
  cbv zeta; repeat split.
  - right; left; reflexivity.
  - discriminate.
Qed.

(** ** Deleting the current conversation *)



Lemma newestFirst_filter (p : Conversation -> bool) (l : list Conversation) :
  newestFirst l -> newestFirst (filter p l).
Proof.
  unfold newestFirst; induction 1 as [|a l Hl IH Ha]; simpl; [constructor|].
  destruct (p a); [|exact IH].
  constructor; [exact IH|].
  apply Forall_forall; intros x Hx; apply filter_In in Hx.
  rewrite Forall_forall in Ha; apply Ha; tauto.
Qed.






(** ** The title over a sequence of calls *)

Lemma perform_appended st c k r text :
  currentConversation st = Some c ->
  appended k = Some (r, text) ->
  exists m,
    perform k st
    = mkState (replaceById c (updatedConversation c r text m) (conversations st))
              (Some (updatedConversation c r text m)).
Proof.
  intros Hcur Hk; destruct k as [r' t' tId rnd tStamp | r' t' tId rnd tStamp | r' t' [m|e]];
    simpl in Hk; try discriminate Hk; injection Hk as -> ->; simpl.
  - eexists; rewrite (Ephemeral_addMessage_current st c) by exact Hcur; reflexivity.
  - eexists; rewrite (Local_addMessage_current st c) by exact Hcur; reflexivity.
  - exists m; rewrite (Remote_addMessage_ok st c) by exact Hcur; reflexivity.
Qed.

Lemma perform_refused st k :
  appended k = None -> perform k st = st.
Proof.
  destruct k as [| | r text [m|e]]; simpl; try discriminate; intros _.
  unfold Remote.addMessage, withRender.
  destruct (currentConversation st); reflexivity.
Qed.

Lemma updatedTitle_frozen c r text :
  messages c <> [] -> updatedTitle c r text = title c.
Proof.
  intros H; unfold updatedTitle; destruct (messages c); [congruence | reflexivity].
Qed.

Lemma updatedTitle_assistant c text :
  updatedTitle c assistant text = title c.
Proof.
  unfold updatedTitle; simpl; rewrite andb_false_r; reflexivity.
Qed.

Lemma updatedConversation_has_messages c r text m :
  messages (updatedConversation c r text m) <> [].
Proof. simpl; intros H; apply app_eq_nil in H; destruct H; discriminate. Qed.

Lemma performAll_frozen calls :
  forall st c,
    currentConversation st = Some c -> messages c <> [] ->
    currentTitle (performAll calls st) = Some (title c).
Proof.
  induction calls as [|k calls IH]; intros st c Hcur Hc.
  - unfold currentTitle; simpl; rewrite Hcur; reflexivity.
  - change (performAll (k :: calls) st) with (performAll calls (perform k st)).
    destruct (appended k) as [[r text]|] eqn:Hk.
    + destruct (perform_appended st c k r text Hcur Hk) as [m ->].
      erewrite IH;
        [| reflexivity | apply updatedConversation_has_messages].
      simpl; rewrite updatedTitle_frozen by exact Hc; reflexivity.
    + rewrite perform_refused by exact Hk; apply (IH st c Hcur Hc).
Qed.


(** ** The frame of [addMessage] *)




(** ** Identifiers of the in-memory providers *)

Lemma replaceById_ids (t u : Conversation) (l : list Conversation) :
  id u = id t -> map id (replaceById t u l) = map id l.
Proof.
  intros E; unfold replaceById; rewrite map_map; apply map_ext_in.
  intros c _; unfold hasId.
  destruct (String.eqb_spec (id c) (id t)) as [E'|_]; congruence.
Qed.

Lemma filter_ids_NoDup (p : Conversation -> bool) (l : list Conversation) :
  NoDup (map id l) -> NoDup (map id (filter p l)).
Proof.
  induction l as [|c l IH]; simpl; intros H; [constructor|].
  inversion H as [|x xs Hnotin Hrest]; subst.
  destruct (p c); simpl; [|apply IH; exact Hrest].
  constructor; [|apply IH; exact Hrest].
  intros Hin; apply Hnotin.
  apply in_map_iff in Hin; destruct Hin as [d [Hd Hin]].
  apply filter_In in Hin; rewrite <- Hd; apply in_map; tauto.
Qed.

(** [addMessage], [switchConversation] and [deleteConversation] keep the ids
    of the collection distinct. *)
Lemma uniqueIds_kept_without_creation (st : State) :
  uniqueIds st ->
  (forall r text target tId rnd tStamp,
     uniqueIds (after (Ephemeral.addMessage r text target tId rnd tStamp st))) /\
  (forall conversationId, uniqueIds (after (switchConversation conversationId st))) /\
  (forall conversationId tId tCreated,
     uniqueIds (after (Ephemeral.deleteConversation conversationId tId tCreated st))).
Proof.
  unfold uniqueIds; intros H; repeat split.
  - intros r text [t|] tId rnd tStamp.
    + rewrite Ephemeral_addMessage_target; simpl.
      rewrite replaceById_ids by reflexivity; exact H.
    + destruct (currentConversation st) as [c|] eqn:Hcur.
      * rewrite (Ephemeral_addMessage_current st c) by exact Hcur; simpl.
        rewrite replaceById_ids by reflexivity; exact H.
      * rewrite Ephemeral_addMessage_none by exact Hcur; exact H.
  - intros cid; unfold switchConversation, withRender.
    destruct (find _ _); exact H.
  - intros cid tId tCreated.
    destruct (currentHasId st cid) eqn:Hcur.
    + rewrite Ephemeral_deleteConversation_current by exact Hcur.
      destruct (filter hasMessages _).
      * simpl; constructor; [intros [] | constructor].
      * apply filter_ids_NoDup; exact H.
    + rewrite Ephemeral_deleteConversation_other by exact Hcur.
      apply filter_ids_NoDup; exact H.
Qed.

(** [createConversation] keeps the ids distinct when the id it generates is
    carried by no conversation that has messages. *)
Lemma uniqueIds_kept_by_fresh_creation (st : State) (tId tCreated : Z) :
  uniqueIds st ->
  ~ In (id (freshConversation tId tCreated))
       (map id (filter hasMessages (conversations st))) ->
  uniqueIds (after (Ephemeral.createConversation tId tCreated st)).
Proof.
  unfold uniqueIds; intros H Hfresh.
  rewrite Ephemeral_createConversation_eq.
  cbn [after fst snd conversations map].
  constructor; [exact Hfresh | apply filter_ids_NoDup; exact H].
Qed.

(** C9 at the failing input. When [createConversation] reads from
    [Date.now()] the value that gave its id to a conversation with messages,
    the collection holds two conversations with the same id: the id is the
    clock reading alone. *)
Theorem createConversation_repeats_id :
  uniqueIds mounted /\
  map id (conversations createdInSameMillisecond) = ["conv-1000"; "conv-1000"] /\
  ~ uniqueIds createdInSameMillisecond.
Proof.
  split; [|split].
  - unfold uniqueIds; vm_compute; constructor; [intros [] | constructor].
  - vm_compute; reflexivity.
  - unfold uniqueIds.
    replace (map id (conversations createdInSameMillisecond))
      with ["conv-1000"; "conv-1000"] by (vm_compute; reflexivity).
    intros H; inversion H as [|x xs Hnotin _]; apply Hnotin; left; reflexivity.
Qed.

(** ** Further properties of the in-memory providers *)

(** The text of a number determines the number. *)
Lemma numberToString_inj (a b : Z) :
  numberToString a = numberToString b -> a = b.
Proof.
  assert (Hnil : forall z, Z.to_int z <> Decimal.Pos Decimal.Nil /\
                           Z.to_int z <> Decimal.Neg Decimal.Nil).
  { intros z; split; destruct z; simpl; try discriminate;
      intros H; injection H as H;
      revert H; apply DecimalPos.Unsigned.to_uint_nonnil. }
  unfold numberToString; intros H.
  apply (f_equal NilZero.int_of_string) in H.
  rewrite !NilZero.isi in H by apply Hnil.
  injection H as H; apply DecimalZ.to_int_inj; exact H.
Qed.

(** Two conversations built by [freshConversation] carry the same id
    exactly when the clock read the same value for both. *)
Theorem freshConversation_id_by_clock :
  forall tId tCreated tId' tCreated',
    id (freshConversation tId tCreated) = id (freshConversation tId' tCreated')
    <-> tId = tId'.
Proof.
  intros tId tCreated tId' tCreated'; split.
  - simpl; intros H.
    injection H as H; apply numberToString_inj; exact H.
  - intros ->; reflexivity.
Qed.

Lemma hasId_refl (c : Conversation) : hasId (id c) c = true.
Proof. unfold hasId; apply String.eqb_refl. Qed.

Lemma replaceById_In_replaced (t u c : Conversation) (l : list Conversation) :
  In c l -> hasId (id t) c = true -> In u (replaceById t u l).
Proof.
  intros Hin Hid; unfold replaceById; apply in_map_iff.
  exists c; rewrite Hid; split; [reflexivity | exact Hin].
Qed.

Lemma replaceById_In_kept (t u c : Conversation) (l : list Conversation) :
  In c l -> hasId (id t) c = false -> In c (replaceById t u l).
Proof.
  intros Hin Hid; unfold replaceById; apply in_map_iff.
  exists c; rewrite Hid; split; [reflexivity | exact Hin].
Qed.

Lemma act_keeps_currentListed (a : Action) (st : State) :
  currentListed st -> currentListed (act a st).
Proof.
  intros [c [Hcur Hin]]; destruct a as [tId tCreated | r text target tId rnd tStamp
                                        | cid | cid tId tCreated]; simpl.
  - exists (freshConversation tId tCreated); split; [reflexivity | left; reflexivity].
  - destruct target as [t|].
    + rewrite Ephemeral_addMessage_target; cbn [after fst snd].
      unfold currentHasId; rewrite Hcur.
      destruct (hasId (id t) c) eqn:Hid.
      * eexists; split; [reflexivity|].
        apply (replaceById_In_replaced t _ c); assumption.
      * exists c; split; [reflexivity|].
        apply replaceById_In_kept; assumption.
    + rewrite (Ephemeral_addMessage_current st c) by exact Hcur; cbn [after fst snd].
      eexists; split; [reflexivity|].
      apply (replaceById_In_replaced c _ c); [exact Hin | apply hasId_refl].
  - unfold switchConversation, withRender.
    destruct (find (hasId cid) (conversations st)) as [k|] eqn:Hfind.
    + exists k; split; [reflexivity|].
      apply find_some in Hfind; exact (proj1 Hfind).
    + exists c; split; assumption.
  - destruct (currentHasId st cid) eqn:Hid.
    + rewrite Ephemeral_deleteConversation_current by exact Hid.
      destruct (filter hasMessages (without cid (conversations st)))
        as [|k rest] eqn:Hf; cbn [after fst snd].
      * eexists; split; [reflexivity | left; reflexivity].
      * exists k; split; [reflexivity|].
        assert (Hk : In k (filter hasMessages (without cid (conversations st))))
          by (rewrite Hf; left; reflexivity).
        apply filter_In in Hk; exact (proj1 Hk).
    + rewrite Ephemeral_deleteConversation_other by exact Hid; cbn [after fst snd].
      exists c; split; [exact Hcur|].
      unfold without; apply filter_In; split; [exact Hin|].
      unfold currentHasId in Hid; rewrite Hcur in Hid; rewrite Hid; reflexivity.
Qed.

Lemma stampedBy_later (now now' : Z) (st : State) :
  (now <= now')%Z -> stampedBy now st -> stampedBy now' st.
Proof.
  intros Hle H c Hin; destruct (H c Hin) as [Hc [t [Ht Hid]]].
  split; [lia|]; exists t; split; [lia | exact Hid].
Qed.

Lemma newestFirst_map (f : Conversation -> Conversation) (l : list Conversation) :
  (forall x, In x l -> createdAt (f x) = createdAt x) ->
  newestFirst l -> newestFirst (map f l).
Proof.
  unfold newestFirst; induction l as [|a l IH]; intros Hf Hs; simpl;
    [constructor|].
  apply StronglySorted_inv in Hs; destruct Hs as [Hs Ha].
  constructor.
  - apply IH; [intros x Hx; apply Hf; right; exact Hx | exact Hs].
  - apply Forall_forall; intros y Hy; apply in_map_iff in Hy.
    destruct Hy as [x [<- Hx]]; rewrite Forall_forall in Ha.
    rewrite !Hf by (simpl; auto); apply Ha; exact Hx.
Qed.

Lemma same_id_same_entry (l : list Conversation) (a b : Conversation) :
  NoDup (map id l) -> In a l -> In b l -> id a = id b -> a = b.
Proof.
  induction l as [|x l IH]; simpl; intros Hnd Ha Hb E; [destruct Ha|].
  inversion Hnd as [|y ys Hnotin Hrest]; subst.
  destruct Ha as [<- | Ha], Hb as [<- | Hb].
  - reflexivity.
  - exfalso; apply Hnotin; rewrite E; apply in_map; exact Hb.
  - exfalso; apply Hnotin; rewrite <- E; apply in_map; exact Ha.
  - apply IH; assumption.
Qed.

Lemma replaceById_newestFirst (c u : Conversation) (l : list Conversation) :
  NoDup (map id l) -> In c l -> createdAt u = createdAt c ->
  newestFirst l -> newestFirst (replaceById c u l).
Proof.
  intros Hnd Hin Hu; unfold replaceById; apply newestFirst_map.
  intros x Hx; unfold hasId.
  destruct (String.eqb_spec (id x) (id c)) as [E|_]; [|reflexivity].
  rewrite (same_id_same_entry l x c Hnd Hx Hin E); exact Hu.
Qed.

Lemma stampedBy_fresh_id (now tId tCreated : Z) (st : State) (p : Conversation -> bool) :
  stampedBy now st -> (now < tId)%Z ->
  ~ In (id (freshConversation tId tCreated)) (map id (filter p (conversations st))).
Proof.
  intros Hst Hlt Hin; apply in_map_iff in Hin; destruct Hin as [c [Hid Hc]].
  apply filter_In in Hc; destruct Hc as [Hc _].
  destruct (Hst c Hc) as [_ [t [Ht Hidc]]].
  rewrite Hidc in Hid; simpl in Hid; injection Hid as Hid.
  apply numberToString_inj in Hid; lia.
Qed.

Lemma stampedBy_singleton (tId tCreated : Z) (cur : option Conversation) :
  (tId <= tCreated)%Z ->
  stampedBy tCreated (mkState [freshConversation tId tCreated] cur).
Proof.
  intros Hle c [<- | []]; split; [simpl; lia|].
  exists tId; split; [exact Hle | reflexivity].
Qed.

Lemma newestFirst_singleton (c : Conversation) : newestFirst [c].
Proof. unfold newestFirst; repeat constructor. Qed.

Lemma act_keeps_orderly (now : Z) (a : Action) (rest : list Action) (st : State) :
  orderly now st -> ticking now (a :: rest) ->
  exists now', orderly now' (act a st) /\ ticking now' rest.
Proof.
  intros Hinv Htick.
  assert (Hlisted : currentListed (act a st))
    by (apply act_keeps_currentListed; apply Hinv).
  destruct Hinv as [Hids [Hsorted [[c [Hcur Hin]] Hst]]].
  destruct a as [tId tCreated | r text target tId rnd tStamp
                 | cid | cid tId tCreated]; simpl in Htick.
  - destruct Htick as [Hlt [Hle Hrest]]; exists tCreated; split; [|exact Hrest].
    split; [|split; [|split; [exact Hlisted|]]].
    + apply uniqueIds_kept_by_fresh_creation; [exact Hids|].
      apply (stampedBy_fresh_id now); assumption.
    + simpl; unfold newestFirst; constructor.
      * apply newestFirst_filter; exact Hsorted.
      * apply Forall_forall; intros x Hx; apply filter_In in Hx.
        destruct (Hst x (proj1 Hx)) as [Hx' _]; simpl; lia.
    + intros x [<- | Hx].
      * split; [simpl; lia|]; exists tId; split; [lia | reflexivity].
      * apply filter_In in Hx.
        apply (stampedBy_later now tCreated st); [lia | exact Hst | exact (proj1 Hx)].
  - destruct Htick as [-> Hrest]; exists now; split; [|exact Hrest].
    simpl in Hlisted |- *.
    rewrite (Ephemeral_addMessage_current st c) in Hlisted |- * by exact Hcur.
    cbn [after fst snd] in Hlisted |- *.
    split; [|split; [|split; [exact Hlisted|]]].
    + unfold uniqueIds; simpl; rewrite replaceById_ids by reflexivity; exact Hids.
    + simpl; apply replaceById_newestFirst; [exact Hids | exact Hin | reflexivity
                                             | exact Hsorted].
    + intros x Hx; simpl in Hx; unfold replaceById in Hx.
      apply in_map_iff in Hx; destruct Hx as [y [Hy Hyin]].
      unfold hasId in Hy.
      destruct (String.eqb_spec (id y) (id c)) as [E|_].
      * subst x; simpl; exact (Hst c Hin).
      * subst x; exact (Hst y Hyin).
  - exists now; split; [|exact Htick].
    simpl in Hlisted |- *; unfold switchConversation, withRender in Hlisted |- *.
    destruct (find (hasId cid) (conversations st));
      (split; [exact Hids | split; [exact Hsorted | split; [exact Hlisted | exact Hst]]]).
  - destruct Htick as [Hlt [Hle Hrest]]; exists tCreated; split; [|exact Hrest].
    simpl in Hlisted |- *.
    assert (Hsub : stampedBy tCreated
                     (mkState (without cid (conversations st)) (currentConversation st))).
    { intros x Hx; simpl in Hx; apply filter_In in Hx.
      apply (stampedBy_later now tCreated st); [lia | exact Hst | exact (proj1 Hx)]. }
    destruct (currentHasId st cid) eqn:Hid.
    + rewrite Ephemeral_deleteConversation_current in Hlisted |- * by exact Hid.
      destruct (filter hasMessages (without cid (conversations st)));
        cbn [after fst snd] in Hlisted |- *.
      * split; [|split; [|split; [exact Hlisted|]]].
        -- unfold uniqueIds; simpl; constructor; [intros [] | constructor].
        -- apply newestFirst_singleton.
        -- apply stampedBy_singleton; exact Hle.
      * split; [|split; [|split; [exact Hlisted|]]].
        -- apply filter_ids_NoDup; exact Hids.
        -- apply newestFirst_filter; exact Hsorted.
        -- exact Hsub.
    + rewrite Ephemeral_deleteConversation_other in Hlisted |- * by exact Hid.
      cbn [after fst snd] in Hlisted |- *.
      split; [|split; [|split; [exact Hlisted|]]].
      * apply filter_ids_NoDup; exact Hids.
      * apply newestFirst_filter; exact Hsorted.
      * exact Hsub.
Qed.

Lemma actAll_keeps_orderly (actions : list Action) :
  forall now st,
    orderly now st -> ticking now actions ->
    exists now', orderly now' (actAll actions st).
Proof.
  induction actions as [|a actions IH]; intros now st Hinv Htick.
  - exists now; exact Hinv.
  - destruct (act_keeps_orderly now a actions st Hinv Htick) as [now' [Hinv' Htick']].
    apply (IH now' (act a st) Hinv' Htick').
Qed.

Lemma mount_orderly (tId tCreated : Z) :
  (tId <= tCreated)%Z ->
  orderly tCreated (after (Ephemeral.mount tId tCreated unmounted)).
Proof.
  intros Hle; split; [|split; [|split]].
  - unfold uniqueIds; simpl; constructor; [intros [] | constructor].
  - apply newestFirst_singleton.
  - exists (freshConversation tId tCreated); split; [reflexivity | left; reflexivity].
  - apply stampedBy_singleton; exact Hle.
Qed.

(** When every reading of [Date.now()] that names a new conversation is
    later than the readings before it, the provider of part_000, from its
    mount on and through every sequence of operations on the current
    conversation, holds conversations with pairwise distinct ids, listed
    from the most recently created to the oldest. *)
Theorem rising_clock_keeps_ids_distinct_and_newest_first :
  forall (tId tCreated : Z) (actions : list Action),
    (tId <= tCreated)%Z ->
    ticking tCreated actions ->
    let st := actAll actions (after (Ephemeral.mount tId tCreated unmounted)) in
    uniqueIds st /\ newestFirst (conversations st).
Proof.
  intros tId tCreated actions Hle Htick st.
  destruct (actAll_keeps_orderly actions tCreated _ (mount_orderly tId tCreated Hle) Htick)
    as [now' [Hids [Hsorted _]]].
  split; assumption.
Qed.

Lemma rising_clock_keeps_ids_distinct_and_newest_first_witness :
  uniqueIds
    (actAll [Add user foodWaste None 1001 "0.5" 1001; Create 1002 1002;
             Add user "Pricing" None 1003 "0.25" 1003; Create 1004 1005;
             Switch "conv-1000"; Delete "conv-1000" 1006 1006]
       (after (Ephemeral.mount 1000 1000 unmounted))).
Proof.
  refine (proj1 (rising_clock_keeps_ids_distinct_and_newest_first 1000 1000
           [Add user foodWaste None 1001 "0.5" 1001; Create 1002 1002;
            Add user "Pricing" None 1003 "0.25" 1003; Create 1004 1005;
            Switch "conv-1000"; Delete "conv-1000" 1006 1006] _ _)).
  - lia.
  - simpl; repeat split; lia.
Defined.

(** ** Deleting a conversation that is not current *)

Lemma Remote_deleteConversation_other st conversationId created :
  currentHasId st conversationId = false ->
  Remote.deleteConversation conversationId (Returned tt) created st
  = (Returned tt,
     mkState (without conversationId (conversations st)) (currentConversation st),
     []).
Proof.
  intros H; unfold Remote.deleteConversation, withRender, without.
  cbv [tryCatch bind await updateConversations]; rewrite H; reflexivity.
Qed.

Lemma without_absent (conversationId : string) (l : list Conversation) :
  ~ In conversationId (map id l) -> without conversationId l = l.
Proof.
  unfold without; induction l as [|c l IH]; simpl; intros H; [reflexivity|].
  unfold hasId at 1.
  destruct (String.eqb_spec (id c) conversationId) as [E|_].
  - exfalso; apply H; left; exact E.
  - simpl; f_equal; apply IH; intros Hin; apply H; right; exact Hin.
Qed.

Lemma without_In (conversationId : string) (l : list Conversation) c :
  In c (without conversationId l) <-> In c l /\ id c <> conversationId.
Proof.
  unfold without; rewrite filter_In; unfold hasId.
  destruct (String.eqb_spec (id c) conversationId) as [E|N]; simpl; split;
    intros [H1 H2]; split; congruence.
Qed.

(** Deleting a conversation that is not the current one removes from the
    collection exactly the entries carrying the id, keeps the others in
    their order and keeps the current conversation, in the in-memory
    providers and, once the backing delete has succeeded, in the remote
    one; afterwards no conversation carries the id. *)
Theorem deleteConversation_not_current :
  forall (st : State) (conversationId : string),
    currentHasId st conversationId = false ->
    forall st',
      (exists tId tCreated,
         st' = after (Ephemeral.deleteConversation conversationId tId tCreated st)) \/
      (exists created,
         st' = after (Remote.deleteConversation conversationId (Returned tt) created st)) ->
      currentConversation st' = currentConversation st /\
      conversations st'
      = filter (fun c => negb (String.eqb (id c) conversationId)) (conversations st) /\
      absent conversationId st' /\
      (forall c, In c (conversations st') <->
                 In c (conversations st) /\ id c <> conversationId).
Proof.
  intros st cid Hcur st' Hst'.
  assert (E : st' = mkState (without cid (conversations st)) (currentConversation st)).
  { destruct Hst' as [[tId [tCreated ->]] | [created ->]].
    - rewrite Ephemeral_deleteConversation_other by exact Hcur; reflexivity.
    - rewrite Remote_deleteConversation_other by exact Hcur; reflexivity. }
  subst st'; cbn [currentConversation conversations].
  split; [reflexivity|]; split; [reflexivity|]; split.
  - unfold absent; cbn [conversations]; intros Hin.
    apply in_map_iff in Hin; destruct Hin as [c [Hid Hc]].
    apply without_In in Hc; tauto.
  - intros c; apply without_In.
Qed.

Lemma deleteConversation_not_current_witness :
  conversations
    (after (Remote.deleteConversation "40" (Returned tt) (Thrown "unused")
              threeOnServer))
  = [answered "43" 990; abandoned].
Proof.
  destruct (deleteConversation_not_current threeOnServer "40" eq_refl
              (after (Remote.deleteConversation "40" (Returned tt) (Thrown "unused")
                        threeOnServer))
              (or_intror (ex_intro _ (Thrown "unused") eq_refl)))
    as [_ [Hall _]].
  exact Hall.
Defined.

(** Deleting an id that neither the current conversation nor any
    conversation of the collection carries changes nothing, writes nothing
    to the console and returns: the unknown id is not reported. *)
Theorem deleteConversation_unknown_id_is_silent :
  forall (st : State) (conversationId : string),
    absent conversationId st ->
    currentHasId st conversationId = false ->
    (forall tId tCreated,
       Ephemeral.deleteConversation conversationId tId tCreated st
       = (Returned tt, st, [])) /\
    (forall created,
       Remote.deleteConversation conversationId (Returned tt) created st
       = (Returned tt, st, [])).
Proof.
  intros st cid Habs Hcur; split; intros.
  - rewrite Ephemeral_deleteConversation_other by exact Hcur.
    rewrite without_absent by exact Habs; destruct st; reflexivity.
  - rewrite Remote_deleteConversation_other by exact Hcur.
    rewrite without_absent by exact Habs; destruct st; reflexivity.
Qed.

Lemma deleteConversation_unknown_id_is_silent_witness :
  Ephemeral.deleteConversation "conv-404" 1001 1001 mounted
  = (Returned tt, mounted, []).
Proof.
  refine (proj1 (deleteConversation_unknown_id_is_silent mounted "conv-404" _ eq_refl)
            1001%Z 1001%Z).
  unfold absent; vm_compute; intros [E|[]]; discriminate E.
Defined.

(** ** Selecting a conversation *)

Lemma find_first {A} (p : A -> bool) (l : list A) (c : A) :
  find p l = Some c ->
  exists before behind,
    l = before ++ c :: behind /\ p c = true /\
    forall x, In x before -> p x = false.
Proof.
  induction l as [|a l IH]; simpl; [discriminate|].
  destruct (p a) eqn:Ha; intros H.
  - injection H as ->; exists [], l; repeat split; [exact Ha | intros x []].
  - destruct (IH H) as [before [behind [-> [Hc Hb]]]].
    exists (a :: before), behind; repeat split; [exact Hc|].
    intros x [<- | Hx]; [exact Ha | apply Hb; exact Hx].
Qed.

Lemma find_present (conversationId : string) (l : list Conversation) :
  In conversationId (map id l) -> exists c, find (hasId conversationId) l = Some c.
Proof.
  intros H; destruct (find (hasId conversationId) l) as [c|] eqn:Hfind;
    [exists c; reflexivity|].
  exfalso; apply in_map_iff in H; destruct H as [c [Hid Hin]].
  apply (find_none _ _ Hfind) in Hin.
  unfold hasId in Hin; rewrite Hid, String.eqb_refl in Hin; discriminate Hin.
Qed.

(** [switchConversation] never changes the collection; for an id that a
    conversation carries it makes current the first conversation of the
    collection carrying it, and switching again to the same id changes
    nothing more. *)
Theorem switchConversation_selects_first :
  forall (st : State) (conversationId : string),
    In conversationId (map id (conversations st)) ->
    let st' := after (switchConversation conversationId st) in
    conversations st' = conversations st /\
    (exists before c behind,
       conversations st = before ++ c :: behind /\
       id c = conversationId /\
       (forall x, In x before -> id x <> conversationId) /\
       currentConversation st' = Some c) /\
    after (switchConversation conversationId st') = st'.
Proof.
  intros st cid Hin st'.
  destruct (find_present cid _ Hin) as [c Hfind].
  assert (E : st' = mkState (conversations st) (Some c)).
  { unfold st'; rewrite (switchConversation_present st cid c Hfind); reflexivity. }
  rewrite E; cbn [conversations currentConversation]; split; [reflexivity|]; split.
  - destruct (find_first _ _ _ Hfind) as [before [behind [Hl [Hc Hb]]]].
    exists before, c, behind; repeat split; try assumption.
    + unfold hasId in Hc; apply String.eqb_eq; exact Hc.
    + intros x Hx Hid; specialize (Hb x Hx); unfold hasId in Hb.
      rewrite Hid, String.eqb_refl in Hb; discriminate Hb.
  - rewrite (switchConversation_present (mkState (conversations st) (Some c)) cid c Hfind).
    reflexivity.
Qed.

Lemma switchConversation_selects_first_witness :
  exists c,
    currentConversation (after (switchConversation "40" threeOnServer)) = Some c /\
    id c = "40".
Proof.
  assert (Hin : In "40" (map id (conversations threeOnServer)))
    by (right; right; left; reflexivity).
  destruct (switchConversation_selects_first threeOnServer "40" Hin)
    as [_ [[before [c [behind [Hl [Hid [Hb Hcur]]]]]] _]].
  exists c; split; [exact Hcur | exact Hid].
Defined.

(** ** Further properties of [addMessage] *)

Lemma replaceById_absent (t u : Conversation) (l : list Conversation) :
  ~ In (id t) (map id l) -> replaceById t u l = l.
Proof.
  unfold replaceById; induction l as [|c l IH]; simpl; intros H; [reflexivity|].
  unfold hasId at 1.
  destruct (String.eqb_spec (id c) (id t)) as [E|_].
  - exfalso; apply H; left; exact E.
  - f_equal; apply IH; intros Hin; apply H; right; exact Hin.
Qed.

(** An [addMessage] of part_000 whose target carries an id that neither a
    conversation of the collection nor the current conversation carries
    returns the target with the new message appended, but stores it nowhere:
    the two cells are unchanged. *)
Theorem addMessage_unlisted_target_is_not_stored :
  forall (st : State) (t : Conversation) (r : Role) (text : string)
         (tId : Z) (rnd : string) (tStamp : Z),
    absent (id t) st ->
    currentHasId st (id t) = false ->
    exists u,
      Ephemeral.addMessage r text (Some t) tId rnd tStamp st = (Returned u, st, []) /\
      messages u = messages t ++ [freshMessage tId rnd tStamp r text].
Proof.
  intros st t r text tId rnd tStamp Habs Hcur.
  exists (updatedConversation t r text (freshMessage tId rnd tStamp r text)).
  split; [|reflexivity].
  rewrite Ephemeral_addMessage_target, Hcur.
  rewrite replaceById_absent by exact Habs; destruct st; reflexivity.
Qed.

Lemma addMessage_unlisted_target_is_not_stored_witness :
  exists u,
    Ephemeral.addMessage user foodWaste (Some abandoned) 1001 "0.5" 1001 mounted
    = (Returned u, mounted, []).
Proof.
  assert (Habs : absent (id abandoned) mounted).
  { unfold absent; vm_compute; intros [E|[]]; discriminate E. }
  destruct (addMessage_unlisted_target_is_not_stored mounted abandoned user foodWaste
              1001 "0.5" 1001 Habs eq_refl) as [u [Hu _]].
  exists u; exact Hu.
Defined.

Lemma string_length_append (a b : string) :
  String.length (a ++ b) = String.length a + String.length b.
Proof. induction a as [|x a IH]; simpl; [reflexivity | rewrite IH; reflexivity]. Qed.

Lemma substring_length (n : nat) (s : string) :
  String.length (substring 0 n s) = Nat.min n (String.length s).
Proof.
  revert n; induction s as [|a s IH]; intros [|n]; simpl; try reflexivity.
  rewrite IH; reflexivity.
Qed.

(** A title that [addMessage] derives from a first user message is never
    longer than 53 characters: it has the length of the content when the
    content has at most 50 characters, and 53 characters otherwise. *)
Theorem derived_title_length :
  forall (c : Conversation) (text : string),
    messages c = [] ->
    String.length (updatedTitle c user text)
    = (if (50 <? String.length text)%nat then 53 else String.length text) /\
    String.length (updatedTitle c user text) <= 53.
Proof.
  intros c text Hc; unfold updatedTitle; rewrite Hc; cbn [List.length Nat.eqb Role_eqb andb].
  rewrite string_length_append, slice_50, substring_length.
  destruct (Nat.ltb_spec 50 (String.length text)) as [H|H];
    cbn [String.length]; lia.
Qed.

Lemma derived_title_length_witness :
  String.length (updatedTitle (freshConversation 1000 1000) user foodWaste) <= 53.
Proof.
  exact (proj2 (derived_title_length (freshConversation 1000 1000) foodWaste eq_refl)).
Defined.

(** ** Loading, clearing and failing in the remote provider *)

Lemma loadConversations_failed s error created :
  Session.loadConversations (Thrown error) created s
  = (Returned tt, Session.mkCells (Session.store s) false,
     [mkLog "Failed to load conversations:" (Some error)]).
Proof. reflexivity. Qed.

Lemma loadConversations_listed s first rest created :
  Session.loadConversations (Returned (first :: rest)) created s
  = (Returned tt, Session.mkCells (mkState (first :: rest) (Some first)) false, []).
Proof. reflexivity. Qed.

Lemma loadConversations_empty s created :
  Session.loadConversations (Returned []) created s
  = match created with
    | Returned n =>
        (Returned tt, Session.mkCells (mkState [n] (Some n)) false, [])
    | Thrown error =>
        (Returned tt,
         Session.mkCells (mkState [] (currentConversation (Session.store s))) false,
         [mkLog "Failed to create conversation:" (Some error)])
    end.
Proof. destruct created; reflexivity. Qed.

(** [loadConversations] never throws and always ends with [isLoading] false;
    when the listing fails the collection and the current conversation are
    as they were and the error is written to the console only. *)
Theorem loadConversations_settles :
  forall (s : Session.Cells) (listed : Completion (list Conversation))
         (created : Completion Conversation),
    let res := Session.loadConversations listed created s in
    outcomeE res = Returned tt /\
    Session.isLoading (afterE res) = false /\
    (forall error, listed = Thrown error ->
       Session.store (afterE res) = Session.store s /\
       consoleE res = [mkLog "Failed to load conversations:" (Some error)]).
Proof.
  intros s listed created res; subst res.
  destruct listed as [[|first rest]|error].
  - rewrite loadConversations_empty; destruct created;
      repeat split; discriminate.
  - rewrite loadConversations_listed; repeat split; discriminate.
  - rewrite loadConversations_failed; repeat split;
      injection H as <-; reflexivity.
Qed.

Lemma loadConversations_settles_witness :
  Session.store
    (afterE (Session.loadConversations (Thrown "503") (Thrown "unused")
               (Session.mkCells threeOnServer false)))
  = threeOnServer.
Proof.
  destruct (loadConversations_settles (Session.mkCells threeOnServer false)
              (Thrown "503") (Thrown "unused")) as [_ [_ Hfail]].
  exact (proj1 (Hfail "503" eq_refl)).
Defined.

(** After [loadConversations] whose backing calls succeed, the collection
    is the list answered by the service, or the one conversation created
    when that list is empty, and the current conversation is the first of
    the collection, whatever the cells held before. *)
Theorem loadConversations_selects_first :
  forall (s : Session.Cells) (data : list Conversation) (n : Conversation),
    let st' := Session.store
                 (afterE (Session.loadConversations (Returned data) (Returned n) s)) in
    conversations st' = match data with [] => [n] | _ :: _ => data end /\
    exists first rest,
      conversations st' = first :: rest /\ currentConversation st' = Some first.
Proof.
  intros s [|first rest] n st'; subst st'.
  - rewrite loadConversations_empty; split; [reflexivity|].
    exists n, []; split; reflexivity.
  - rewrite loadConversations_listed; split; [reflexivity|].
    exists first, rest; split; reflexivity.
Qed.

Lemma clearCurrentConversation_eq st c deleted created :
  currentConversation st = Some c ->
  Session.clearCurrentConversation deleted created st
  = match deleted, created with
    | Returned _, Returned n =>
        (Returned tt, mkState (n :: conversations st) (Some n), [])
    | Returned _, Thrown error =>
        (Returned tt, st, [mkLog "Failed to create conversation:" (Some error)])
    | Thrown error, _ =>
        (Returned tt, st, [mkLog "Failed to clear conversation:" (Some error)])
    end.
Proof.
  intros H; unfold Session.clearCurrentConversation, withRender; rewrite H.
  destruct deleted as [[]|e], created as [n|e']; reflexivity.
Qed.

(** [clearCurrentConversation] removes nothing from the collection: when
    both backing calls succeed the collection is the created conversation
    followed by the whole previous collection, the cleared conversation
    included, whereas [deleteConversation] of the current id leaves no
    conversation with that id but the created one; a conversation with the
    cleared id can therefore still be selected by [switchConversation]. *)
Theorem clearCurrentConversation_keeps_cleared :
  forall (st : State) (c n : Conversation),
    currentConversation st = Some c ->
    In c (conversations st) ->
    let cleared :=
      after (Session.clearCurrentConversation (Returned tt) (Returned n) st) in
    let deleted :=
      after (Remote.deleteConversation (id c) (Returned tt) (Returned n) st) in
    conversations cleared = n :: conversations st /\
    currentConversation cleared = Some n /\
    In c (conversations cleared) /\
    (exists k, currentConversation (after (switchConversation (id c) cleared)) = Some k /\
               id k = id c) /\
    (forall x, In x (conversations deleted) -> x = n \/ id x <> id c).
Proof.
  intros st c n Hcur Hin cleared deleted; subst cleared deleted.
  rewrite (clearCurrentConversation_eq st c) by exact Hcur.
  cbn [after fst snd conversations currentConversation].
  split; [reflexivity|]; split; [reflexivity|]; split; [right; exact Hin|]; split.
  - assert (Hid : In (id c) (map id (n :: conversations st)))
      by (apply in_map; right; exact Hin).
    destruct (find_present (id c) _ Hid) as [k Hk].
    exists k; rewrite (switchConversation_present _ (id c) k) by exact Hk.
    split; [reflexivity|].
    apply find_hasId_some in Hk; exact (proj2 Hk).
  - assert (Hc : currentHasId st (id c) = true)
      by (unfold currentHasId; rewrite Hcur; apply hasId_refl).
    rewrite Remote_deleteConversation_current by exact Hc.
    destruct (without (id c) (conversations st)) as [|first rest] eqn:Hw;
      cbn [after fst snd conversations].
    + intros x [E | []]; left; symmetry; exact E.
    + rewrite <- Hw; intros x H; apply without_In in H; right; exact (proj2 H).
Qed.

Lemma clearCurrentConversation_keeps_cleared_witness :
  conversations
    (after (Session.clearCurrentConversation (Returned tt) (Returned abandoned) loaded))
  = [abandoned; serverConversation].
Proof.
  destruct (clearCurrentConversation_keeps_cleared loaded serverConversation abandoned
              eq_refl (or_introl eq_refl)) as [Hall _].
  exact Hall.
Defined.

(** Of the operations of the remote provider only [addMessage] can throw,
    and it throws exactly the error by which the backing append failed while
    a conversation was current; creating, deleting, clearing and loading
    return whatever the backing service answers. *)
Theorem remote_provider_throws_only_from_addMessage :
  forall (st : State),
    (forall created, outcome (Remote.createNewConversation created st) = Returned tt) /\
    (forall conversationId deleted created,
       outcome (Remote.deleteConversation conversationId deleted created st)
       = Returned tt) /\
    (forall deleted created,
       outcome (Session.clearCurrentConversation deleted created st) = Returned tt) /\
    (forall loading listed created,
       outcomeE (Session.loadConversations listed created (Session.mkCells st loading))
       = Returned tt) /\
    (forall r text appended error,
       outcome (Remote.addMessage r text appended st) = Thrown error <->
       currentConversation st <> None /\ appended = Thrown error).
Proof.
  intros st; split; [|split; [|split; [|split]]].
  - intros [n|e]; reflexivity.
  - intros cid [[]|e] created; [|reflexivity].
    destruct (currentHasId st cid) eqn:Hcur.
    + rewrite Remote_deleteConversation_current by exact Hcur.
      destruct (without cid (conversations st)); [|reflexivity].
      destruct created; reflexivity.
    + rewrite Remote_deleteConversation_other by exact Hcur; reflexivity.
  - intros deleted created.
    destruct (currentConversation st) as [c|] eqn:Hcur.
    + rewrite (clearCurrentConversation_eq st c) by exact Hcur.
      destruct deleted, created; reflexivity.
    + unfold Session.clearCurrentConversation, withRender; rewrite Hcur; reflexivity.
  - intros loading [[|first rest]|e] created.
    + rewrite loadConversations_empty; destruct created; reflexivity.
    + rewrite loadConversations_listed; reflexivity.
    + rewrite loadConversations_failed; reflexivity.
  - intros r text appended error.
    destruct (currentConversation st) as [c|] eqn:Hcur.
    + destruct appended as [m|e].
      * rewrite (Remote_addMessage_ok st c) by exact Hcur; simpl.
        split; [discriminate | intros [_ H]; discriminate H].
      * rewrite (Remote_addMessage_failed st c) by exact Hcur; simpl.
        split; [intros H; injection H as ->; split; [discriminate | reflexivity]
               | intros [_ H]; injection H as ->; reflexivity].
    + rewrite Remote_addMessage_none by exact Hcur; simpl.
      split; [discriminate | intros [H _]; exfalso; apply H; reflexivity].
Qed.

(** When the remote provider deletes its only conversation and the create
    call that follows fails, the collection is left empty while the current
    conversation is still the deleted one: the provider then holds a current
    conversation that is not in its collection. *)
Theorem deleteConversation_last_with_failed_create :
  forall (st : State) (c : Conversation) (error : string),
    conversations st = [c] ->
    currentConversation st = Some c ->
    let res := Remote.deleteConversation (id c) (Returned tt) (Thrown error) st in
    after res = mkState [] (Some c) /\
    outcome res = Returned tt /\
    console res = [mkLog "Failed to create conversation:" (Some error)] /\
    ~ currentListed (after res).
Proof.
  intros st c error Hl Hcur res; subst res.
  assert (Hc : currentHasId st (id c) = true)
    by (unfold currentHasId; rewrite Hcur; apply hasId_refl).
  rewrite Remote_deleteConversation_current by exact Hc.
  rewrite Hl, Hcur; unfold without; simpl; rewrite hasId_refl; simpl.
  repeat split.
  intros [k [_ []]].
Qed.

Lemma deleteConversation_last_with_failed_create_witness :
  after (Remote.deleteConversation "41" (Returned tt) (Thrown "503") loaded)
  = mkState [] (Some serverConversation).
Proof.
  exact (proj1 (deleteConversation_last_with_failed_create loaded serverConversation
                  "503" eq_refl eq_refl)).
Defined.

(** ** The chat view *)

Example trim_examples :
  trim (String "009" (String " " (String "h" (String "i" (String " " (String "010" ""))))))
  = "hi" /\
  trim "   " = "" /\ trim "a  b" = "a  b" /\ trim "" = "".
Proof. repeat split. Qed.

Example substringJS_examples :
  substringJS "abcdef" 0 60 = "abcdef" /\ substringJS "abcdef" 4 2 = "cd" /\
  substringJS "abcdef" (-3) 2 = "ab" /\ substringJS "abcdef" 2 2 = "".
Proof. repeat split. Qed.

Lemma Remote_addMessage_of_render r text answer st c :
  currentConversation st = Some c ->
  Remote.addMessage r text (answer (id c) r text) st
  = addMessageOf st r text answer st.
Proof.
  intros E; unfold Remote.addMessage, addMessageOf, withRender; rewrite E;
    reflexivity.
Qed.

Lemma addMessageOf_ok render c r text answer m st :
  currentConversation render = Some c ->
  answer (id c) r text = Returned m ->
  let u := updatedConversation c r text m in
  addMessageOf render r text answer st
  = (Returned tt, mkState (replaceById c u (conversations st)) (Some u), []).
Proof. intros E A u; unfold addMessageOf; rewrite E, A; reflexivity. Qed.

Lemma addMessageOf_failed render c r text answer error st :
  currentConversation render = Some c ->
  answer (id c) r text = Thrown error ->
  addMessageOf render r text answer st
  = (Thrown error, st, [mkLog "Failed to add message:" (Some error)]).
Proof. intros E A; unfold addMessageOf; rewrite E, A; reflexivity. Qed.

Lemma addMessageOf_none render r text answer st :
  currentConversation render = None ->
  addMessageOf render r text answer st = (Returned tt, st, []).
Proof. intros E; unfold addMessageOf; rewrite E; reflexivity. Qed.

Lemma replaceById_twice (t u1 u2 : Conversation) (l : list Conversation) :
  id u1 = id t ->
  replaceById t u2 (replaceById t u1 l) = replaceById t u2 l.
Proof.
  intros E; unfold replaceById; rewrite map_map; apply map_ext; intros x.
  destruct (hasId (id t) x) eqn:Hx; [|rewrite Hx; reflexivity].
  unfold hasId; rewrite E, String.eqb_refl; reflexivity.
Qed.

Lemma handleSubmit_guarded chat a1 a2 a3 (s : AnalyzeView.Cells) :
  trim (AnalyzeView.input s) = "" \/ AnalyzeView.isLoading s = true ->
  AnalyzeView.handleSubmit chat a1 a2 a3 s = (Returned tt, s, []).
Proof.
  intros H; unfold AnalyzeView.handleSubmit, withCells.
  destruct H as [-> | ->]; [reflexivity | rewrite orb_true_r; reflexivity].
Qed.

Lemma handleSubmit_open chat a1 a2 a3 (s : AnalyzeView.Cells) :
  trim (AnalyzeView.input s) <> "" -> AnalyzeView.isLoading s = false ->
  AnalyzeView.handleSubmit chat a1 a2 a3 s
  = let userMessage := trim (AnalyzeView.input s) in
    let addMessage := addMessageOf (AnalyzeView.provider s) in
    (AnalyzeView.setInput "" ;;
     AnalyzeView.setIsLoading true ;;
     tryFinallyE
       (tryCatchE
          (AnalyzeView.onProvider (addMessage user userMessage a1) ;;
           response <- awaitE (chat userMessage (AnalyzeView.chatHistory s userMessage)) ;;
           AnalyzeView.onProvider (addMessage assistant response a2))
          (fun error =>
             AnalyzeView.onProvider
               (addMessage assistant
                  ("Sorry, I encountered an error: " ++ error)%string a3)))
       (AnalyzeView.setIsLoading false))%eff s.
Proof.
  intros Hin Hload; unfold AnalyzeView.handleSubmit, withCells.
  rewrite Hload, orb_false_r.
  destruct (String.eqb_spec (trim (AnalyzeView.input s)) "") as [E|_];
    [contradiction | reflexivity].
Qed.

Ltac run_submit :=
  cbv [bindE tryFinallyE tryCatchE awaitE setCell onCells
       AnalyzeView.setInput AnalyzeView.setIsLoading AnalyzeView.onProvider
       AnalyzeView.provider AnalyzeView.activeTab AnalyzeView.input
       AnalyzeView.isLoading].

(** A submit whose chat call and two appends succeed leaves in the provider
    what the append of the reply alone would have left from the render of
    the submit: the current conversation, and every entry of the collection
    carrying its id, is the conversation of that render followed by the
    reply only, under the title of that render; the user message and the
    title derived from it are overwritten.  The input is emptied and
    [isLoading] is false again. *)
Theorem handleSubmit_keeps_only_the_reply :
  forall (s : AnalyzeView.Cells) (c : Conversation)
         (chat : string -> list AnalyzeView.ChatMessage -> Completion string)
         (userAppend replyAppend apologyAppend : AnalyzeView.Append)
         (sent reply : Message) (response : string),
    trim (AnalyzeView.input s) <> "" ->
    AnalyzeView.isLoading s = false ->
    currentConversation (AnalyzeView.provider s) = Some c ->
    userAppend (id c) user (trim (AnalyzeView.input s)) = Returned sent ->
    chat (trim (AnalyzeView.input s))
         (map AnalyzeView.toChat (messages c)
          ++ [AnalyzeView.mkChatMessage AnalyzeView.fromUser (trim (AnalyzeView.input s))])
    = Returned response ->
    replyAppend (id c) assistant response = Returned reply ->
    let res := AnalyzeView.handleSubmit chat userAppend replyAppend apologyAppend s in
    let u := updatedConversation c assistant response reply in
    res = (Returned tt,
           AnalyzeView.mkCells
             (mkState (replaceById c u (conversations (AnalyzeView.provider s)))
                      (Some u))
             (AnalyzeView.activeTab s) "" false,
           []) /\
    messages u = messages c ++ [reply] /\
    title u = title c.
Proof.
  intros s c chat a1 a2 a3 sent reply response Hin Hload Hcur Hsent Hchat Hreply res u.
  split; [|split; [reflexivity | apply updatedTitle_assistant]].
  subst res; rewrite handleSubmit_open by assumption; cbv zeta.
  unfold AnalyzeView.chatHistory; rewrite Hcur, Hchat.
  run_submit.
  rewrite (addMessageOf_ok _ c _ _ _ sent) by assumption.
  rewrite (addMessageOf_ok _ c _ _ _ reply) by assumption; cbn [conversations].
  rewrite replaceById_twice by reflexivity; reflexivity.
Qed.

Lemma handleSubmit_keeps_only_the_reply_witness :
  AnalyzeView.handleSubmit politeChat echoAppend echoAppend echoAppend typing
  = (Returned tt,
     AnalyzeView.mkCells
       (mkState [updatedConversation serverConversation assistant "Noted."
                   (serverMessage assistant "Noted.")]
                (Some (updatedConversation serverConversation assistant "Noted."
                         (serverMessage assistant "Noted."))))
       AnalyzeView.analyze "" false,
     []).
Proof.
  refine (proj1 (handleSubmit_keeps_only_the_reply typing serverConversation
                   politeChat echoAppend echoAppend echoAppend
                   (serverMessage user "Pricing?") (serverMessage assistant "Noted.")
                   "Noted." _ eq_refl eq_refl eq_refl eq_refl eq_refl)).
  vm_compute; discriminate.
Defined.

(** When the chat service fails, the submit asks the backing service to
    append, as the assistant, the text ["Sorry, I encountered an error: "]
    followed by the message of the error; when that append succeeds the
    submit returns, and the provider holds the conversation of the render
    followed by that message only. *)
Theorem handleSubmit_records_chat_failure :
  forall (s : AnalyzeView.Cells) (c : Conversation)
         (chat : string -> list AnalyzeView.ChatMessage -> Completion string)
         (userAppend replyAppend apologyAppend : AnalyzeView.Append)
         (sent apology : Message) (error : string),
    trim (AnalyzeView.input s) <> "" ->
    AnalyzeView.isLoading s = false ->
    currentConversation (AnalyzeView.provider s) = Some c ->
    userAppend (id c) user (trim (AnalyzeView.input s)) = Returned sent ->
    chat (trim (AnalyzeView.input s))
         (map AnalyzeView.toChat (messages c)
          ++ [AnalyzeView.mkChatMessage AnalyzeView.fromUser (trim (AnalyzeView.input s))])
    = Thrown error ->
    apologyAppend (id c) assistant ("Sorry, I encountered an error: " ++ error)%string
    = Returned apology ->
    let res := AnalyzeView.handleSubmit chat userAppend replyAppend apologyAppend s in
    let u := updatedConversation c assistant
               ("Sorry, I encountered an error: " ++ error)%string apology in
    res = (Returned tt,
           AnalyzeView.mkCells
             (mkState (replaceById c u (conversations (AnalyzeView.provider s)))
                      (Some u))
             (AnalyzeView.activeTab s) "" false,
           []) /\
    messages u = messages c ++ [apology] /\
    title u = title c.
Proof.
  intros s c chat a1 a2 a3 sent apology error Hin Hload Hcur Hsent Hchat Hsorry res u.
  split; [|split; [reflexivity | apply updatedTitle_assistant]].
  subst res; rewrite handleSubmit_open by assumption; cbv zeta.
  unfold AnalyzeView.chatHistory; rewrite Hcur, Hchat.
  run_submit.
  rewrite (addMessageOf_ok _ c _ _ _ sent) by assumption.
  rewrite (addMessageOf_ok _ c _ _ _ apology) by assumption; cbn [conversations].
  rewrite replaceById_twice by reflexivity; reflexivity.
Qed.

Lemma handleSubmit_records_chat_failure_witness :
  exists u,
    currentConversation
      (AnalyzeView.provider
         (afterE (AnalyzeView.handleSubmit exhaustedChat echoAppend echoAppend
                    echoAppend typing))) = Some u /\
    messages u = [serverMessage assistant "Sorry, I encountered an error: 429"].
Proof.
  assert (Hin : trim (AnalyzeView.input typing) <> "") by (vm_compute; discriminate).
  destruct (handleSubmit_records_chat_failure typing serverConversation
              exhaustedChat echoAppend echoAppend echoAppend
              (serverMessage user "Pricing?")
              (serverMessage assistant "Sorry, I encountered an error: 429")
              "429" Hin eq_refl eq_refl eq_refl eq_refl eq_refl) as [Hres [Hm _]].
  eexists; rewrite Hres; split; [reflexivity | exact Hm].
Defined.

Lemma handleSubmit_no_conversation chat a1 a2 a3 (s : AnalyzeView.Cells) :
  trim (AnalyzeView.input s) <> "" ->
  AnalyzeView.isLoading s = false ->
  currentConversation (AnalyzeView.provider s) = None ->
  AnalyzeView.handleSubmit chat a1 a2 a3 s
  = (Returned tt,
     AnalyzeView.mkCells (AnalyzeView.provider s) (AnalyzeView.activeTab s) "" false,
     []).
Proof.
  intros Hin Hload Hcur.
  rewrite handleSubmit_open by assumption; cbv zeta.
  run_submit.
  rewrite !addMessageOf_none by exact Hcur.
  destruct (chat _ _); rewrite ?addMessageOf_none by exact Hcur; reflexivity.
Qed.

(** A submit made while the provider has no current conversation empties
    the input and ends with [isLoading] false, but records nothing and
    reports nothing, whatever the chat service answers: the provider cells
    are unchanged. *)
Theorem handleSubmit_without_conversation_records_nothing :
  forall (s : AnalyzeView.Cells)
         (chat : string -> list AnalyzeView.ChatMessage -> Completion string)
         (userAppend replyAppend apologyAppend : AnalyzeView.Append),
    trim (AnalyzeView.input s) <> "" ->
    AnalyzeView.isLoading s = false ->
    currentConversation (AnalyzeView.provider s) = None ->
    AnalyzeView.handleSubmit chat userAppend replyAppend apologyAppend s
    = (Returned tt,
       AnalyzeView.mkCells (AnalyzeView.provider s) (AnalyzeView.activeTab s) "" false,
       []).
Proof.
  intros s chat a1 a2 a3 Hin Hload Hcur.
  apply handleSubmit_no_conversation; assumption.
Qed.

Lemma handleSubmit_without_conversation_records_nothing_witness :
  AnalyzeView.handleSubmit politeChat echoAppend echoAppend echoAppend
    (AnalyzeView.mkCells unmounted AnalyzeView.analyze "Pricing?" false)
  = (Returned tt, AnalyzeView.mkCells unmounted AnalyzeView.analyze "" false, []).
Proof.
  refine (handleSubmit_without_conversation_records_nothing
            (AnalyzeView.mkCells unmounted AnalyzeView.analyze "Pricing?" false)
            politeChat echoAppend echoAppend echoAppend _ eq_refl eq_refl).
  vm_compute; discriminate.
Defined.

(** Every submit that passes the guard empties the input, leaves the tab
    alone and ends with [isLoading] false, whatever the chat and backing
    services answer; it throws only when the append of the apology is itself
    refused, and then throws the error of that refusal. *)
Theorem handleSubmit_settles :
  forall (s : AnalyzeView.Cells)
         (chat : string -> list AnalyzeView.ChatMessage -> Completion string)
         (userAppend replyAppend apologyAppend : AnalyzeView.Append),
    trim (AnalyzeView.input s) <> "" ->
    AnalyzeView.isLoading s = false ->
    let res := AnalyzeView.handleSubmit chat userAppend replyAppend apologyAppend s in
    AnalyzeView.isLoading (afterE res) = false /\
    AnalyzeView.input (afterE res) = "" /\
    AnalyzeView.activeTab (afterE res) = AnalyzeView.activeTab s /\
    (forall error,
       outcomeE res = Thrown error ->
       exists c cause,
         currentConversation (AnalyzeView.provider s) = Some c /\
         apologyAppend (id c) assistant
           ("Sorry, I encountered an error: " ++ cause)%string = Thrown error).
Proof.
  intros s chat a1 a2 a3 Hin Hload res; subst res.
  destruct (currentConversation (AnalyzeView.provider s)) as [c|] eqn:Hcur.
  - rewrite handleSubmit_open by assumption; cbv zeta.
    unfold addMessageOf; rewrite Hcur.
    run_submit; cbv [tryCatch bind await setCurrentConversation updateConversations
                     consoleError throw].
    destruct (a1 (id c) user _) as [m1|e1] eqn:H1.
    + destruct (chat _ _) as [response|e2].
      * destruct (a2 (id c) assistant response) as [m2|e3] eqn:H2.
        -- repeat split; intros error H; discriminate H.
        -- destruct (a3 (id c) assistant _) as [m3|e4] eqn:H3.
           ++ repeat split; intros error H; discriminate H.
           ++ repeat split; intros error H; injection H as <-.
              exists c, e3; split; [reflexivity | exact H3].
      * destruct (a3 (id c) assistant _) as [m3|e4] eqn:H3.
        -- repeat split; intros error H; discriminate H.
        -- repeat split; intros error H; injection H as <-.
           exists c, e2; split; [reflexivity | exact H3].
    + destruct (a3 (id c) assistant _) as [m3|e4] eqn:H3.
      * repeat split; intros error H; discriminate H.
      * repeat split; intros error H; injection H as <-.
        exists c, e1; split; [reflexivity | exact H3].
  - rewrite handleSubmit_no_conversation by assumption.
    repeat split; intros error H; discriminate H.
Qed.

Lemma handleSubmit_settles_witness :
  AnalyzeView.isLoading
    (afterE (AnalyzeView.handleSubmit exhaustedChat echoAppend echoAppend
               (fun _ _ _ => Thrown "503") typing)) = false.
Proof.
  refine (proj1 (handleSubmit_settles typing exhaustedChat echoAppend echoAppend
                   (fun _ _ _ => Thrown "503") _ eq_refl)).
  vm_compute; discriminate.
Defined.

Lemma trimStart_blank (s : string) :
  Forall (fun c => isWhiteSpace c = true) (list_ascii_of_string s) ->
  trimStart s = "".
Proof.
  induction s as [|c s IH]; simpl; intros H; [reflexivity|].
  inversion H as [|x xs Hc Hs]; subst; rewrite Hc; apply IH; exact Hs.
Qed.

(** Nothing is sent, and no cell changes, when the input holds white space
    only, when a submit is in flight, or when the key pressed is not Enter
    without Shift. *)
Theorem handleSubmit_guard :
  forall (s : AnalyzeView.Cells)
         (chat : string -> list AnalyzeView.ChatMessage -> Completion string)
         (userAppend replyAppend apologyAppend : AnalyzeView.Append),
    (Forall (fun c => isWhiteSpace c = true)
            (list_ascii_of_string (AnalyzeView.input s)) \/
     AnalyzeView.isLoading s = true ->
     AnalyzeView.handleSubmit chat userAppend replyAppend apologyAppend s
     = (Returned tt, s, [])) /\
    (forall key shiftKey,
       key <> "Enter" \/ shiftKey = true ->
       AnalyzeView.handleKeyDown key shiftKey chat userAppend replyAppend
         apologyAppend s
       = (Returned tt, s, [])).
Proof.
  intros s chat a1 a2 a3; split.
  - intros [H | H]; apply handleSubmit_guarded; [left | right; exact H].
    unfold trim; rewrite trimStart_blank by exact H; reflexivity.
  - intros key shiftKey [H | ->]; unfold AnalyzeView.handleKeyDown.
    + destruct (String.eqb_spec key "Enter") as [E|_]; [contradiction | reflexivity].
    + rewrite andb_false_r; reflexivity.
Qed.

Lemma handleSubmit_guard_witness :
  AnalyzeView.handleSubmit politeChat echoAppend echoAppend echoAppend
    (AnalyzeView.mkCells loaded AnalyzeView.analyze "   " false)
  = (Returned tt, AnalyzeView.mkCells loaded AnalyzeView.analyze "   " false, []).
Proof.
  refine (proj1 (handleSubmit_guard
                   (AnalyzeView.mkCells loaded AnalyzeView.analyze "   " false)
                   politeChat echoAppend echoAppend echoAppend) _).
  left; simpl; repeat constructor.
Defined.

(** ** The history tab *)

Lemma substringJS_prefix (s : string) :
  substringJS s 0 60 = substring 0 (Nat.min 60 (String.length s)) s.
Proof.
  unfold substringJS.
  replace (Z.to_nat (Z.min (Z.min (Z.max 0 0) (Z.of_nat (String.length s)))
                           (Z.min (Z.max 60 0) (Z.of_nat (String.length s)))))
    with 0%nat by lia.
  f_equal; lia.
Qed.

(** The heading of a conversation in the history tab is never empty and
    never longer than 63 characters; it is the content of the first message
    when that content is not empty and has at most 60 characters, and
    ["New Conversation"] when there is no message or the first message is
    empty. *)
Theorem historyHeading_bounds :
  forall (conv : Conversation),
    let heading := AnalyzeView.historyHeading conv in
    0 < String.length heading /\
    String.length heading <= 63 /\
    (forall first rest,
       messages conv = first :: rest ->
       content first <> "" -> String.length (content first) <= 60 ->
       heading = content first) /\
    (messages conv = [] \/
     (exists first rest, messages conv = first :: rest /\ content first = "") ->
     heading = "New Conversation").
Proof.
  intros conv heading; subst heading; unfold AnalyzeView.historyHeading.
  destruct (messages conv) as [|first rest].
  - repeat split; try (simpl; lia).
    intros first rest H; discriminate H.
  - rewrite substringJS_prefix.
    split; [|split; [|split]].
    + rewrite string_length_append.
      destruct (String.eqb_spec (substring 0 (Nat.min 60 (String.length (content first)))
                                   (content first)) "") as [E|N].
      * simpl; lia.
      * assert (H : String.length (substring 0 (Nat.min 60 (String.length (content first)))
                                     (content first)) <> 0).
        { intros H; apply N; destruct (substring _ _ _); [reflexivity | discriminate H]. }
        lia.
    + rewrite string_length_append.
      assert (H3 : String.length (if (60 <? String.length (content first))%nat
                                  then "..." else "") <= 3)
        by (destruct (60 <? String.length (content first))%nat; simpl; lia).
      destruct (String.eqb_spec (substring 0 (Nat.min 60 (String.length (content first)))
                                   (content first)) "") as [E|N].
      * apply (f_equal String.length) in E; rewrite substring_length in E; simpl in E.
        destruct (Nat.ltb_spec 60 (String.length (content first))); simpl; lia.
      * rewrite substring_length; lia.
    + intros f r H Hne Hlen; injection H as <- <-.
      rewrite Nat.min_r by lia.
      rewrite substring_all by lia.
      destruct (String.eqb_spec (content first) "") as [E|_]; [contradiction|].
      destruct (Nat.ltb_spec 60 (String.length (content first))); [lia|].
      apply append_empty_r.
    + intros [H | [f [r [H E]]]]; [discriminate H|].
      injection H as <- <-; rewrite E; reflexivity.
Qed.

Lemma historyHeading_bounds_witness :
  AnalyzeView.historyHeading (answered "40" 800) = "Pricing".
Proof.
  destruct (historyHeading_bounds (answered "40" 800)) as [_ [_ [Hshort _]]].
  apply (Hshort _ [] eq_refl); [discriminate | simpl; lia].
Defined.

(** ** The graph of an analysis *)

Lemma indexed_from_In {A} (l : list A) (x : A) :
  forall start, In x l -> exists i, In (i, x) (combine (seq start (List.length l)) l).
Proof.
  induction l as [|a l IH]; intros start Hin; [destruct Hin|].
  destruct Hin as [-> | Hin]; simpl.
  - exists start; left; reflexivity.
  - destruct (IH (S start) Hin) as [i Hi]; exists i; right; exact Hi.
Qed.

Lemma indexed_In {A} (l : list A) (x : A) :
  In x l -> exists i, In (i, x) (AnalysisVisualizer.indexed l).
Proof. apply indexed_from_In. Qed.

Lemma indexed_length {A} (l : list A) :
  List.length (AnalysisVisualizer.indexed l) = List.length l.
Proof.
  unfold AnalysisVisualizer.indexed; rewrite length_combine, length_seq; lia.
Qed.

Section Graph.

Variable Position : Type.
Variable fixedPosition : Z -> Z -> Position.
Variable chunkPosition : nat -> nat -> Position.
Variable insightPosition : nat -> nat -> nat -> nat -> Position.

Lemma chunk_nodes_listed response theme chunk index n :
  In (index, chunk) (AnalysisVisualizer.indexed (AnalysisVisualizer.chunks response)) ->
  In n (AnalysisVisualizer.chunkNodes Position chunkPosition insightPosition theme
          (List.length (AnalysisVisualizer.chunks response)) (index, chunk)) ->
  In (AnalysisVisualizer.nodeId Position n)
     (map (AnalysisVisualizer.nodeId Position) (AnalysisVisualizer.initialNodes Position fixedPosition chunkPosition
          insightPosition response theme)).
Proof.
  intros Hc Hn; apply in_map; unfold AnalysisVisualizer.initialNodes.
  right; apply in_or_app; left; apply in_flat_map.
  exists (index, chunk); split; assumption.
Qed.

(** Every edge of the graph of an analysis starts from a node of the graph
    and ends at a node of the graph, whatever the response and the theme. *)
Theorem edges_join_nodes :
  forall (response : AnalysisVisualizer.UserDrivenResponse)
         (theme : AnalysisVisualizer.Theme) (e : AnalysisVisualizer.Edge),
    In e (AnalysisVisualizer.initialEdges response theme) ->
    In (AnalysisVisualizer.source e)
       (map (AnalysisVisualizer.nodeId Position) (AnalysisVisualizer.initialNodes Position fixedPosition chunkPosition
          insightPosition response theme)) /\
    In (AnalysisVisualizer.target e)
       (map (AnalysisVisualizer.nodeId Position) (AnalysisVisualizer.initialNodes Position fixedPosition chunkPosition
          insightPosition response theme)).
Proof.
  intros response theme e He.
  unfold AnalysisVisualizer.initialEdges in He; apply in_flat_map in He.
  destruct He as [chunk [Hchunk He]].
  destruct (indexed_In _ _ Hchunk) as [index Hindex].
  assert (Hproblem : In "problem"
            (map (AnalysisVisualizer.nodeId Position) (AnalysisVisualizer.initialNodes Position fixedPosition chunkPosition
          insightPosition response theme)))
    by (left; reflexivity).
  assert (Hsolution : In "solution"
            (map (AnalysisVisualizer.nodeId Position) (AnalysisVisualizer.initialNodes Position fixedPosition chunkPosition
          insightPosition response theme))).
  { unfold AnalysisVisualizer.initialNodes; simpl; right.
    rewrite map_app; apply in_or_app; right; left; reflexivity. }
  assert (Hnode : In ("chunk-" ++ AnalysisVisualizer.chunkId chunk)%string
            (map (AnalysisVisualizer.nodeId Position) (AnalysisVisualizer.initialNodes Position fixedPosition chunkPosition
          insightPosition response theme))).
  { apply (chunk_nodes_listed response theme chunk index
             (AnalysisVisualizer.chunkNode Position chunkPosition theme
                (List.length (AnalysisVisualizer.chunks response)) index chunk) Hindex).
    left; reflexivity. }
  unfold AnalysisVisualizer.chunkEdges in He.
  destruct He as [<- | He]; [split; assumption|].
  apply in_app_or in He; destruct He as [He | [<- | []]]; [|split; assumption].
  apply in_map_iff in He; destruct He as [i [<- Hi]]; split; [exact Hnode|].
  apply (chunk_nodes_listed response theme chunk index
           (AnalysisVisualizer.insightNode Position insightPosition theme
              (List.length (AnalysisVisualizer.chunks response)) index chunk
              (fst i) (snd i)) Hindex).
  right; apply in_map_iff; exists i; split; [reflexivity | exact Hi].
Qed.

Lemma flat_map_length_sum {A B} (f : A -> list B) (g : A -> nat) (l : list A) :
  (forall x, In x l -> List.length (f x) = g x) ->
  List.length (flat_map f l) = list_sum (map g l).
Proof.
  induction l as [|a l IH]; intros H; simpl; [reflexivity|].
  rewrite length_app, H, IH; [reflexivity | intros x Hx; apply H; right; exact Hx
                              | left; reflexivity].
Qed.

Lemma indexed_sum {A} (g : A -> nat) (l : list A) :
  list_sum (map (fun i => g (snd i)) (AnalysisVisualizer.indexed l))
  = list_sum (map g l).
Proof.
  unfold AnalysisVisualizer.indexed; generalize 0 as start.
  induction l as [|a l IH]; intros start; simpl; [reflexivity|].
  rewrite IH; reflexivity.
Qed.

(** The graph of an analysis has the problem, the solution, one node for
    each chunk and one for each insight; each chunk brings two edges and
    each insight one. *)
Theorem graph_size :
  forall (response : AnalysisVisualizer.UserDrivenResponse)
         (theme : AnalysisVisualizer.Theme),
    let insights :=
      list_sum (map (fun c => List.length (AnalysisVisualizer.key_insights c))
                    (AnalysisVisualizer.chunks response)) in
    List.length (AnalysisVisualizer.initialNodes Position fixedPosition chunkPosition
          insightPosition response theme)
    = 2 + List.length (AnalysisVisualizer.chunks response) + insights /\
    List.length (AnalysisVisualizer.initialEdges response theme)
    = 2 * List.length (AnalysisVisualizer.chunks response) + insights.
Proof.
  intros response theme insights; subst insights; split.
  - unfold AnalysisVisualizer.initialNodes; simpl.
    rewrite length_app; simpl.
    rewrite (flat_map_length_sum _
               (fun i => S (List.length (AnalysisVisualizer.key_insights (snd i))))).
    + rewrite (indexed_sum (fun c => S (List.length (AnalysisVisualizer.key_insights c)))).
      induction (AnalysisVisualizer.chunks response) as [|c l IH]; simpl in *; lia.
    + intros [index chunk] _; simpl; rewrite length_map, indexed_length; reflexivity.
  - unfold AnalysisVisualizer.initialEdges.
    rewrite (flat_map_length_sum _
               (fun c => 2 + List.length (AnalysisVisualizer.key_insights c))).
    + induction (AnalysisVisualizer.chunks response) as [|c l IH]; simpl in *; lia.
    + intros chunk _; unfold AnalysisVisualizer.chunkEdges; simpl.
      rewrite length_app, length_map, indexed_length; simpl; lia.
Qed.

End Graph.

Lemma edges_join_nodes_witness :
  In "chunk-1"
     (map (AnalysisVisualizer.nodeId (Z * Z))
        (AnalysisVisualizer.initialNodes (Z * Z) pair (fun _ _ => (0, 0)%Z)
           (fun _ _ _ _ => (0, 0)%Z) smallAnalysis AnalysisVisualizer.dark)).
Proof.
  refine (proj2 (edges_join_nodes (Z * Z) pair (fun _ _ => (0, 0)%Z)
                   (fun _ _ _ _ => (0, 0)%Z) smallAnalysis AnalysisVisualizer.dark
                   (AnalysisVisualizer.mkEdge "problem-chunk-1" "problem" "chunk-1"
                      true "#666") _)).
  left; reflexivity.
Defined.

(** ** Calls made from a given render *)

Lemma Ephemeral_addMessage_of_render r text target tId rnd tStamp st :
  Ephemeral.addMessage r text target tId rnd tStamp st
  = addMessageOfEphemeral st r text target tId rnd tStamp st.
Proof. reflexivity. Qed.

Lemma Local_addMessage_of_render r text tId rnd tStamp st :
  Local.addMessage r text tId rnd tStamp st
  = addMessageOfLocal st r text tId rnd tStamp st.
Proof. reflexivity. Qed.

Lemma Ephemeral_createConversation_of_render tId tCreated st :
  Ephemeral.createConversation tId tCreated st
  = createConversationOf st tId tCreated st.
Proof. reflexivity. Qed.

Lemma Remote_addMessage_of_render_answer r text answer st :
  Remote.addMessage r text answer st
  = addMessageOf st r text (fun _ _ _ => answer) st.
Proof.
  unfold Remote.addMessage, addMessageOf, withRender.
  destruct (currentConversation st); reflexivity.
Qed.

Lemma perform_of_render (k : AddMessageCall) (st : State) :
  perform k st = performFrom st k st.
Proof.
  destruct k; simpl; [reflexivity | reflexivity |].
  rewrite Remote_addMessage_of_render_answer; reflexivity.
Qed.

Lemma addMessageOfEphemeral_eq render st t r text target tId rnd tStamp :
  Ephemeral.conversationToUpdate target render = Some t ->
  let u := updatedConversation t r text (freshMessage tId rnd tStamp r text) in
  addMessageOfEphemeral render r text target tId rnd tStamp st
  = (Returned u,
     mkState (replaceById t u (conversations st))
             (if (match target with None => true | Some _ => false end
                  || currentHasId render (id t))%bool
              then Some u else currentConversation st),
     []).
Proof.
  intros E u; unfold addMessageOfEphemeral; rewrite E.
  cbv [bind updateConversations ret].
  destruct (match target with None => true | Some _ => false end
            || currentHasId render (id t))%bool; reflexivity.
Qed.

Lemma addMessageOfLocal_eq render st t r text tId rnd tStamp :
  currentConversation render = Some t ->
  let u := updatedConversation t r text (freshMessage tId rnd tStamp r text) in
  addMessageOfLocal render r text tId rnd tStamp st
  = (Returned tt, mkState (replaceById t u (conversations st)) (Some u), []).
Proof. intros E u; unfold addMessageOfLocal; rewrite E; reflexivity. Qed.

Lemma performFrom_delivered render c k r text m st :
  currentConversation render = Some c ->
  delivered k = Some (r, text, m) ->
  performFrom render k st
  = mkState (replaceById c (updatedConversation c r text m) (conversations st))
            (Some (updatedConversation c r text m)).
Proof.
  intros Hcur Hk.
  destruct k as [r' t' tId rnd tStamp | r' t' tId rnd tStamp | r' t' [m'|e]];
    simpl in Hk; try discriminate Hk; injection Hk as -> -> <-; simpl.
  - rewrite (addMessageOfEphemeral_eq render st c) by exact Hcur; reflexivity.
  - rewrite (addMessageOfLocal_eq render st c) by exact Hcur; reflexivity.
  - rewrite (addMessageOf_ok render c _ _ _ m') by (exact Hcur || reflexivity).
    reflexivity.
Qed.

Lemma performFrom_refused render k st :
  delivered k = None -> performFrom render k st = st.
Proof.
  destruct k as [| | r text [m|e]]; simpl; try discriminate; intros _.
  unfold addMessageOf; destruct (currentConversation render); reflexivity.
Qed.

(** The calls of one run read the same conversation: the run leaves what
    its last delivery alone would have left. *)
Lemma performRun_eq (calls : list AddMessageCall) (st : State) (c : Conversation) :
  currentConversation st = Some c ->
  performRun calls st
  = match lastDelivered calls with
    | Some (r, text, m) =>
        mkState (replaceById c (updatedConversation c r text m) (conversations st))
                (Some (updatedConversation c r text m))
    | None => st
    end.
Proof.
  intros Hcur; unfold performRun.
  set (result := fun d : Role * string * Message =>
         let '(r, text, m) := d in
         mkState (replaceById c (updatedConversation c r text m) (conversations st))
                 (Some (updatedConversation c r text m))).
  assert (H : forall calls s,
             s = st \/ (exists d, s = result d) ->
             fold_left (fun s k => performFrom st k s) calls s
             = match lastDelivered calls with
               | Some d => result d
               | None => s
               end).
  { clear calls; induction calls as [|k calls IH]; intros s Hs; [reflexivity|].
    cbn [fold_left lastDelivered].
    destruct (delivered k) as [[[r text] m]|] eqn:Hk.
    - rewrite (performFrom_delivered st c k r text m s Hcur Hk).
      assert (E : mkState (replaceById c (updatedConversation c r text m) (conversations s))
                          (Some (updatedConversation c r text m))
                  = result (r, text, m)).
      { unfold result; f_equal.
        destruct Hs as [-> | [[[r0 text0] m0] ->]]; [reflexivity|].
        unfold result; cbn [conversations].
        apply replaceById_twice; reflexivity. }
      rewrite E, IH by (right; eexists; reflexivity).
      destruct (lastDelivered calls); reflexivity.
    - rewrite performFrom_refused by exact Hk.
      rewrite IH by exact Hs; destruct (lastDelivered calls); reflexivity. }
  rewrite H by (left; reflexivity).
  destruct (lastDelivered calls) as [[[r text] m]|]; reflexivity.
Qed.

Lemma performRuns_current (runs : list (list AddMessageCall)) :
  forall (st : State) (c : Conversation),
    currentConversation st = Some c ->
    exists c',
      currentConversation (performRuns runs st) = Some c' /\
      id c' = id c /\
      createdAt c' = createdAt c /\
      messages c' = messages c ++ map snd (kept runs) /\
      title c' = match messages c, kept runs with
                 | [], (r, text, _) :: _ => updatedTitle c r text
                 | _, _ => title c
                 end.
Proof.
  induction runs as [|calls runs IH]; intros st c Hcur.
  - exists c; simpl; rewrite app_nil_r; repeat split; [exact Hcur|].
    destruct (messages c); reflexivity.
  - change (performRuns (calls :: runs) st) with (performRuns runs (performRun calls st)).
    rewrite (performRun_eq calls st c Hcur); cbn [kept].
    destruct (lastDelivered calls) as [[[r text] m]|].
    + destruct (IH (mkState (replaceById c (updatedConversation c r text m)
                               (conversations st))
                            (Some (updatedConversation c r text m)))
                   (updatedConversation c r text m) eq_refl)
        as [c' [H1 [H2 [H3 [H4 H5]]]]].
      exists c'; repeat split; try assumption.
      * rewrite H4; simpl; rewrite <- app_assoc; reflexivity.
      * rewrite H5; cbn [messages updatedConversation title].
        destruct (messages c) as [|m0 l] eqn:Hm; simpl.
        -- reflexivity.
        -- apply updatedTitle_frozen; rewrite Hm; discriminate.
    + apply (IH st c Hcur).
Qed.

Lemma performAll_as_runs (calls : list AddMessageCall) :
  forall st, performAll calls st = performRuns (map (fun k => [k]) calls) st.
Proof.
  induction calls as [|k calls IH]; intros st; [reflexivity|].
  change (performAll (k :: calls) st) with (performAll calls (perform k st)).
  rewrite IH, perform_of_render; reflexivity.
Qed.









Lemma kept_one_call_per_render (calls : list AddMessageCall) :
  List.length (kept (map (fun k => [k]) calls)) = List.length (filter appends calls).
Proof.
  induction calls as [|k calls IH]; [reflexivity|].
  cbn [map kept lastDelivered filter]; unfold appends at 1.
  destruct k as [| | r text [m|e]]; simpl; rewrite ?IH; reflexivity.
Qed.

(** Over runs of handlers, each making its [addMessage] calls on the
    current conversation from one render, the current conversation keeps
    its id and creation time and the messages it had stay, in their order,
    in front; each run adds one message, that of its last call the backing
    service did not refuse, whatever calls the run made before it.  When
    every call is made from its own render, one message is added for each
    call that was not refused. *)
Theorem messages_grow_by_one_per_run :
  forall (runs : list (list AddMessageCall)) (st : State) (c : Conversation),
    currentConversation st = Some c ->
    (exists c',
       currentConversation (performRuns runs st) = Some c' /\
       id c' = id c /\
       createdAt c' = createdAt c /\
       messages c' = messages c ++ map snd (kept runs)) /\
    (forall calls,
       runs = map (fun k => [k]) calls ->
       performRuns runs st = performAll calls st /\
       List.length (kept runs) = List.length (filter appends calls)).
Proof.
  intros runs st c Hcur; split.
  - destruct (performRuns_current runs st c Hcur) as [c' [H1 [H2 [H3 [H4 _]]]]].
    exists c'; repeat split; assumption.
  - intros calls ->; split.
    + symmetry; apply performAll_as_runs.
    + apply kept_one_call_per_render.
Qed.

Lemma messages_grow_by_one_per_run_witness :
  exists c',
    currentConversation
      (performRuns
         [[RemoteCall user "Pricing?" (Returned (serverMessage user "Pricing?"));
           RemoteCall assistant "Noted." (Returned (serverMessage assistant "Noted."))]]
         loaded) = Some c' /\
    messages c' = [serverMessage assistant "Noted."].
Proof.
  destruct (messages_grow_by_one_per_run
              [[RemoteCall user "Pricing?" (Returned (serverMessage user "Pricing?"));
                RemoteCall assistant "Noted."
                  (Returned (serverMessage assistant "Noted."))]]
              loaded serverConversation eq_refl) as [[c' [H1 [_ [_ H4]]]] _].
  exists c'; split; [exact H1 | exact H4].
Defined.

Lemma actAll_keeps_currentListed (actions : list Action) :
  forall st, currentListed st -> currentListed (actAll actions st).
Proof.
  induction actions as [|a actions IH]; intros st H; [exact H|].
  apply (IH (act a st)), act_keeps_currentListed; exact H.
Qed.

(** When each operation of the provider of part_000 is called from a render
    that shows the cells the operation before it left, a provider that holds
    a current conversation listed in its collection does so after every
    sequence of operations, whatever their arguments and the clock, and its
    collection is never empty.  Inside one handler this fails:
    [createConversation()] followed, from the same render, by [addMessage]
    on the conversation it returned leaves the new conversation without
    messages as the current one while the collection holds the updated
    conversation in its place, unless the current conversation of that
    render carried the new id. *)
Theorem current_conversation_listed_between_renders :
  (forall (actions : list Action) (st : State),
     currentListed st ->
     currentListed (actAll actions st) /\ conversations (actAll actions st) <> []) /\
  (forall (st : State) (tId tCreated : Z) (r : Role) (text : string)
          (tIdM : Z) (rnd : string) (tStamp : Z),
     let n := freshConversation tId tCreated in
     let created := createConversationOf st tId tCreated st in
     let res := addMessageOfEphemeral st r text (Some n) tIdM rnd tStamp
                  (after created) in
     let u := updatedConversation n r text (freshMessage tIdM rnd tStamp r text) in
     currentHasId st (id n) = false ->
     outcome created = Returned n /\
     outcome res = Returned u /\
     currentConversation (after res) = Some n /\
     conversations (after res)
     = u :: replaceById n u (filter hasMessages (conversations st)) /\
     ~ currentListed (after res)).
Proof.
  split.
  - intros actions st H.
    assert (H' := actAll_keeps_currentListed actions st H).
    split; [exact H'|].
    destruct H' as [c [_ Hin]]; intros E; rewrite E in Hin; destruct Hin.
  - intros st tId tCreated r text tIdM rnd tStamp n created res u Hcur.
    assert (Hres : res = (Returned u,
                          mkState (u :: replaceById n u
                                          (filter hasMessages (conversations st)))
                                  (Some n), [])).
    { subst res created.
      rewrite (addMessageOfEphemeral_eq st _ n) by reflexivity.
      cbn [orb]; rewrite Hcur.
      unfold createConversationOf; cbn [after fst snd bind setConversations
        setCurrentConversation ret conversations currentConversation].
      fold n; unfold replaceById at 1; cbn [map]; rewrite hasId_refl.
      reflexivity. }
    rewrite Hres; cbn [outcome after fst snd conversations currentConversation].
    repeat split.
    intros [k [Hk Hin]]; injection Hk as <-.
    destruct Hin as [E | Hin].
    + apply (f_equal messages) in E; simpl in E.
      destruct (messages n); discriminate E.
    + unfold replaceById in Hin; apply in_map_iff in Hin.
      destruct Hin as [x [Hx _]].
      destruct (hasId (id n) x) eqn:Hid.
      * apply (f_equal messages) in Hx; simpl in Hx.
        destruct (messages n); discriminate Hx.
      * subst x; rewrite hasId_refl in Hid; discriminate Hid.
Qed.

Lemma current_conversation_listed_between_renders_witness :
  currentListed
    (actAll [Add user foodWaste None 1001 "0.5" 1001;
             Delete "conv-1000" 1002 1002;
             Switch "conv-404"] mounted) /\
  ~ currentListed
      (after (addMessageOfEphemeral mounted user "Pricing" (Some (freshConversation 1002 1002))
                1003 "0.5" 1003
                (after (createConversationOf mounted 1002 1002 mounted)))).
Proof.
  destruct current_conversation_listed_between_renders as [Hseq Hrun].
  split.
  - apply (Hseq [Add user foodWaste None 1001 "0.5" 1001;
                 Delete "conv-1000" 1002 1002;
                 Switch "conv-404"] mounted).
    exists (freshConversation 1000 1000); split; [reflexivity | left; reflexivity].
  - apply (Hrun mounted 1002%Z 1002%Z user "Pricing" 1003%Z "0.5" 1003%Z).
    reflexivity.
Defined.
